(** * scripts/assemble_helper.py: a shallow embedding and its properties

    The script runs [./build/test_asm] on a source file, reads the hex dump
    the assembler prints and writes the bytes to a binary file.

    Python values are modelled as follows.
    - [str] is a list of Unicode code points ([N]).
    - The regular expression of the script is a term of [regex], run by a
      backtracking matcher with greedy repetition, the way [re] runs it.
    - Printing, spawning the assembler and file operations are events of a
      trace; the file system is a finite map from paths to contents.
    - Exceptions are values of [exn]; a computation returns [Val] or [Exc]. *)

From Stdlib Require Import NArith ZArith String Ascii DecimalString.
From Stdlib.Strings Require Import Byte.
From stdpp Require Import base option list gmap.

Set Default Proof Using "Type".
Local Open Scope N_scope.

(** ** Strings *)

Abbreviation str := (list N).

(** An ASCII literal of the script as a [str]. *)
Definition py (s : string) : str :=
  map N_of_ascii (list_ascii_of_string s).

(** The newline character. *)
Definition NL : N := 10.

(** [str.isspace] on one code point; [\s] of a [str] pattern and
    [str.split()] / [str.strip()] without argument use the same test. *)
Definition is_space (c : N) : bool :=
  ((9 <=? c) && (c <=? 13)) || ((28 <=? c) && (c <=? 32))
  || (c =? 133) || (c =? 160) || (c =? 5760)
  || ((8192 <=? c) && (c <=? 8202))
  || (c =? 8232) || (c =? 8233) || (c =? 8239) || (c =? 8287) || (c =? 12288).

(** The class [[0-9a-f]] under [re.IGNORECASE]: the lower-cased character is
    in the class, and only [A]..[F] lower-case into [a]..[f]. *)
Definition is_hex (c : N) : bool :=
  ((48 <=? c) && (c <=? 57)) || ((97 <=? c) && (c <=? 102))
  || ((65 <=? c) && (c <=? 70)).

Definition is_colon (c : N) : bool := c =? 58.

(** ** [needle in haystack] *)

Fixpoint startswith (p s : str) : bool :=
  match p, s with
  | [], _ => true
  | _ :: _, [] => false
  | a :: p', b :: s' => (a =? b) && startswith p' s'
  end.

Fixpoint contains (needle hay : str) : bool :=
  startswith needle hay
  || match hay with
     | [] => false
     | _ :: hay' => contains needle hay'
     end.

(** ** Regular expressions *)

Inductive regex :=
| Class (p : N -> bool)      (* one character of a class *)
| Bol                        (* [^] under [re.MULTILINE] *)
| Cat (r1 r2 : regex)        (* [r1 r2] *)
| Star (r : regex)           (* greedy [r*] *)
| Grp (r : regex).           (* the capturing group [(r)] *)

(** Greedy [r+] and [r{2}]. *)
Definition Plus (r : regex) : regex := Cat r (Star r).
Definition Twice (r : regex) : regex := Cat r r.

(** A position in the text: the character before it, and what follows. *)
Record cursor := Cursor { before : option N; after : str }.

Definition at_bol (cur : cursor) : bool :=
  match before cur with
  | None => true
  | Some c => c =? NL
  end.

(** What the matcher consumed between two positions. *)
Definition consumed (cur cur' : cursor) : str :=
  take (length (after cur) - length (after cur')) (after cur).

(** A match: where it ends and what group 1 holds. *)
Definition found : Type := cursor * option str.
Definition cont : Type := cursor -> option str -> option found.

(** The loop of a greedy [r*]: first try one more iteration of [body], and
    leave the loop only when that fails. An iteration has to consume a
    character, so [fuel], the number of characters left, is never used up
    before the text is. *)
Fixpoint star_loop (body : cont -> cont) (k : cont) (fuel : nat)
    (cur : cursor) (g : option str) : option found :=
  match fuel with
  | O => k cur g
  | S fuel' =>
      match body
              (fun cur' g' =>
                 if (length (after cur') <? length (after cur))%nat
                 then star_loop body k fuel' cur' g' else None)
              cur g with
      | Some res => Some res
      | None => k cur g
      end
  end.

(** The backtracking matcher, in continuation-passing style: [run r k cur g]
    matches [r] at [cur] and hands the end position to [k]; when [k] fails
    the matcher tries the next alternative. *)
Fixpoint run (r : regex) (k : cont) (cur : cursor) (g : option str)
  : option found :=
  match r with
  | Class p =>
      match after cur with
      | c :: rest => if p c then k (Cursor (Some c) rest) g else None
      | [] => None
      end
  | Bol => if at_bol cur then k cur g else None
  | Cat r1 r2 => run r1 (run r2 k) cur g
  | Star r1 => star_loop (run r1) k (length (after cur)) cur g
  | Grp r1 => run r1 (fun cur' _ => k cur' (Some (consumed cur cur'))) cur g
  end.

(** [pattern.match] at a position. *)
Definition match_at (r : regex) (cur : cursor) : option found :=
  run r (fun cur' g => Some (cur', g)) cur None.

(** Group 1 of a match ([findall] gives the empty string for a group that
    did not take part). *)
Definition group1 (m : found) : str := default [] (snd m).

(** [pattern.findall(text)]: scan left to right; after a match continue at
    its end. [skip] counts the characters of the last match still to step
    over. A match of the script's pattern is never empty. *)
Fixpoint findall_from (r : regex) (skip : nat) (prev : option N) (text : str)
  : list str :=
  match skip with
  | S skip' =>
      match text with
      | c :: rest => findall_from r skip' (Some c) rest
      | [] => []
      end
  | O =>
      match match_at r (Cursor prev text) with
      | Some m =>
          group1 m ::
          match text with
          | c :: rest =>
              findall_from r
                (length (consumed (Cursor prev text) (fst m)) - 1) (Some c) rest
          | [] => []
          end
      | None =>
          match text with
          | c :: rest => findall_from r O (Some c) rest
          | [] => []
          end
      end
  end.

Definition findall (r : regex) (text : str) : list str :=
  findall_from r O None text.

(** The pattern the script compiles with [re.MULTILINE | re.IGNORECASE],
    written here with blanks between its parts:
    [^  [0-9a-f]+  :  \s+  (  (?:  [0-9a-f]{2}  \s*  )+  )] *)
Definition hex_pattern : regex :=
  Cat Bol
 (Cat (Plus (Class is_hex))
 (Cat (Class is_colon)
 (Cat (Plus (Class is_space))
      (Grp (Plus (Cat (Twice (Class is_hex)) (Star (Class is_space)))))))).

(** ** [strip], [split] and [int(_, 16)] *)

Fixpoint lstrip (s : str) : str :=
  match s with
  | c :: s' => if is_space c then lstrip s' else s
  | [] => []
  end.

Definition rstrip (s : str) : str := rev (lstrip (rev s)).
Definition strip (s : str) : str := rstrip (lstrip s).

(** [s.split()]: the maximal runs of non-space characters; [word] holds the
    run being read, last character first. *)
Fixpoint split_from (word : str) (s : str) : list str :=
  match s with
  | [] => match word with [] => [] | _ => [rev word] end
  | c :: s' =>
      if is_space c
      then match word with
           | [] => split_from [] s'
           | _ => rev word :: split_from [] s'
           end
      else split_from (c :: word) s'
  end.

Definition split (s : str) : list str := split_from [] s.

Definition hex_value (c : N) : option N :=
  if (48 <=? c) && (c <=? 57) then Some (c - 48)
  else if (97 <=? c) && (c <=? 102) then Some (c - 87)
  else if (65 <=? c) && (c <=? 70) then Some (c - 55)
  else None.

Fixpoint int16_from (acc : N) (s : str) : option N :=
  match s with
  | [] => Some acc
  | c :: s' =>
      match hex_value c with
      | Some d => int16_from (16 * acc + d) s'
      | None => None
      end
  end.

(** [int(token, 16)] on a non-empty run of hex digits, which is all the
    script passes (lemma [findall_tokens_hex]); [None] stands for any other
    token. *)
Definition int16 (token : str) : option N :=
  match token with
  | [] => None
  | _ => int16_from 0 token
  end.

(** ** Exceptions, values and effects *)

Inductive exn_class :=
| OSError | FileNotFoundError | PermissionError | ValueError | IndexError
| UnicodeEncodeError.

(** [issubclass c d]; [IOError] is [OSError]. *)
Definition issubclass (c d : exn_class) : bool :=
  match c, d with
  | OSError, OSError
  | FileNotFoundError, (FileNotFoundError | OSError)
  | PermissionError, (PermissionError | OSError)
  | ValueError, ValueError
  | IndexError, IndexError
  | UnicodeEncodeError, (UnicodeEncodeError | ValueError) => true
  | _, _ => false
  end.

(** An error: its class and its message. *)
Record error := Err { err_class : exn_class; err_text : str }.

(** What can be raised: an error, or the [SystemExit] of [sys.exit]. *)
Inductive exn :=
| Error (e : error)
| SystemExit (code : Z).

Definition isinstance (e : exn) (c : exn_class) : bool :=
  match e with
  | Error e => issubclass (err_class e) c
  | SystemExit _ => false
  end.

(** [str(e)] *)
Definition exn_text (e : exn) : str :=
  match e with
  | Error e => err_text e
  | SystemExit _ => []
  end.

(** What a function of the script returns. *)
Inductive value :=
| VBool (b : bool)
| VInt (n : Z).

Definition truthy (v : value) : bool :=
  match v with
  | VBool b => b
  | VInt n => negb (n =? 0)%Z
  end.

Inductive event :=
| Print (line : str)                        (* [print(line)] *)
| RunProcess (argv : list str)              (* [subprocess.run(argv, ...)] *)
| OpenWb (path : str)                       (* [open(path, 'wb')] *)
| WriteBytes (path : str) (data : list byte)
| Close (path : str)
| Traceback (e : exn).                      (* uncaught exception *)

Record world := World {
  trace : list event;
  files : gmap str (list byte)
}.

Definition log (ev : event) (w : world) : world :=
  World (trace w ++ [ev]) (files w).

Inductive res (A : Type) :=
| Val (a : A)
| Exc (e : exn).
Arguments Val {A} a.
Arguments Exc {A} e.

Definition M (A : Type) : Type := world -> res A * world.

#[global] Instance M_ret : MRet M := fun A a w => (Val a, w).
#[global] Instance M_bind : MBind M := fun A B f c w =>
  match c w with
  | (Val a, w') => f a w'
  | (Exc e, w') => (Exc e, w')
  end.

Definition raise {A} (e : exn) : M A := fun w => (Exc e, w).

Definition lift {A} (r : res A) : M A := fun w => (r, w).

(** [try: body  except cls as e: handler e] *)
Definition try_except {A} (body : M A) (cls : exn_class) (handler : exn -> M A)
  : M A := fun w =>
  match body w with
  | (Exc e, w') => if isinstance e cls then handler e w' else (Exc e, w')
  | (Val a, w') => (Val a, w')
  end.

(** [body] and then [cleanup], whether [body] raised or not. *)
Definition finally {A} (body : M A) (cleanup : world -> world) : M A :=
  fun w => let '(r, w') := body w in (r, cleanup w').

(** A printed line is made of pieces: ASCII text written in the script, a
    character outside ASCII written in the script, and text that comes from
    the environment (the captured output, the text of an error, a path
    given as argument). *)
Inductive piece :=
| Lit (s : string)
| Mark (c : N)
| Env (s : str).

Definition piece_text (p : piece) : str :=
  match p with
  | Lit s => py s
  | Mark c => [c]
  | Env s => s
  end.

(** The line as one string. *)
Fixpoint line_of (ps : list piece) : str :=
  match ps with
  | [] => []
  | [p] => piece_text p
  | p :: ps' => piece_text p ++ line_of ps'
  end.

(** Every character the script itself wrote into the line is ASCII. *)
Definition plain (ps : list piece) : bool :=
  forallb (fun p => match p with Mark _ => false | _ => true end) ps.

(** What [sys.stdout] does with a line that is not [plain]: it takes it, or
    raises an error ([UnicodeEncodeError] when its encoding lacks a
    character, an [OSError] when the descriptor cannot be written). *)
Definition console : Type := str -> option error.

(** What the operating system does, as far as the script can tell. *)
Record completed := Completed { stdout : str; stderr : str; returncode : Z }.

Record os := OS {
  os_run : list str -> error + completed;
  os_open_wb : str -> option error;
  os_write : str -> list byte -> option (error * nat)
}.

(** [str(n)] for a length. *)
Definition str_of_nat (n : nat) : str :=
  py (NilZero.string_of_uint (Nat.to_uint n)).

(** ** The script *)

Section Script.
Context (sys : os) (con : console).

(** [print(line)]. ASCII text encodes in the encoding of [sys.stdout], and
    text from the environment was decoded by the same locale; for any other
    line the console decides. *)
Definition print (ps : list piece) : M unit := fun w =>
  if plain ps then (Val tt, log (Print (line_of ps)) w)
  else
    match con (line_of ps) with
    | None => (Val tt, log (Print (line_of ps)) w)
    | Some e => (Exc (Error e), w)
    end.

(** [subprocess.run(argv, capture_output=True, text=True, check=False)] *)
Definition subprocess_run (argv : list str) : M completed :=
  fun w =>
    (match os_run sys argv with
     | inl e => Exc (Error e)
     | inr result => Val result
     end, log (RunProcess argv) w).

(** [open(path, 'wb')]: creates or truncates the file. *)
Definition open_wb (path : str) : M unit := fun w =>
  match os_open_wb sys path with
  | Some e => (Exc (Error e), log (OpenWb path) w)
  | None => (Val tt, World (trace w ++ [OpenWb path]) (<[path := []]> (files w)))
  end.

(** [f.write(data)], with the flush that the end of the [with] block forces:
    when the operating system fails the write, in [f.write] or in that
    flush, the error is raised inside the [with] block and the file holds
    the [reached] first bytes of [data] that got through. *)
Definition file_write (path : str) (data : list byte) : M nat := fun w =>
  match os_write sys path data with
  | Some (e, reached) =>
      (Exc (Error e),
       World (trace w ++ [WriteBytes path data])
             (<[path := default [] (files w !! path) ++ take reached data]>
                (files w)))
  | None =>
      (Val (length data),
       World (trace w ++ [WriteBytes path data])
             (<[path := default [] (files w !! path) ++ data]> (files w)))
  end.

(** [with open(path, 'wb') as f: body] *)
Definition with_open_wb {A} (path : str) (body : M A) : M A :=
  open_wb path ;; finally body (log (Close path)).

(** [bytes(ints)] *)
Definition bytes (ints : list N) : M (list byte) :=
  match mapM Byte.of_N ints with
  | Some data => mret data
  | None => raise (Error (Err ValueError (py "bytes must be in range(0, 256)")))
  end.

(** The inner loop of "Collect all bytes". *)
Fixpoint append_tokens (code_bytes : list N) (hex_bytes : list str)
  : res (list N) :=
  match hex_bytes with
  | [] => Val code_bytes
  | hex_byte :: rest =>
      match int16 hex_byte with
      | Some n => append_tokens (code_bytes ++ [n]) rest
      | None =>
          Exc (Error (Err ValueError (py "invalid literal for int() with base 16")))
      end
  end.

(** The outer loop of "Collect all bytes". *)
Fixpoint collect_bytes (code_bytes : list N) (matches : list str)
  : res (list N) :=
  match matches with
  | [] => Val code_bytes
  | m :: rest =>
      match append_tokens code_bytes (split (strip m)) with
      | Val code_bytes' => collect_bytes code_bytes' rest
      | Exc e => Exc e
      end
  end.

(** The f-string of the success message; it begins with a check mark,
    U+2713. *)
Definition success_message (count : nat) (output_file : str) : str :=
  [10003] ++ py " Assembly successful: " ++ str_of_nat count
  ++ py " bytes written to " ++ output_file.

(** The same, in pieces. *)
Definition success_pieces (count : nat) (output_file : str) : list piece :=
  [Mark 10003; Lit " Assembly successful: ";
   Lit (NilZero.string_of_uint (Nat.to_uint count));
   Lit " bytes written to "; Env output_file].

(** "Write binary file" *)
Definition write_binary_file (output_file : str) (code_bytes : list N)
  : M value :=
  try_except
    (with_open_wb output_file
       (data ← bytes code_bytes; file_write output_file data) ;;
     print (success_pieces (length code_bytes) output_file) ;;
     mret (VBool true))
    OSError
    (fun e =>
       print [Lit "Error writing output file: "; Env (exn_text e)] ;;
       mret (VBool false)).

(** "Parse hex dump" and "Collect all bytes" *)
Definition parse_hex_dump (text : str) (output_file : str) : M value :=
  let matches := findall hex_pattern text in
  match matches with
  | [] =>
      print [Lit "Error: No hex dump found in output"] ;;
      print [Env text] ;;
      mret (VBool false)
  | _ =>
      code_bytes ← lift (collect_bytes [] matches);
      write_binary_file output_file code_bytes
  end.

(** "Check if assembly succeeded" *)
Definition check_assembly (result : completed) (output_file : str) : M value :=
  if contains (py "FAILED") (stdout result) then
    print [Lit "Assembly FAILED"] ;;
    print [Env (stdout result)] ;;
    mret (VBool false)
  else if negb (contains (py "SUCCEEDED") (stdout result)) then
    print [Lit "Unexpected output from test_asm"] ;;
    print [Env (stdout result)] ;;
    mret (VBool false)
  else parse_hex_dump (stdout result) output_file.

Definition assemble_and_save (src_file output_file : str) : M value := fun w =>
  match subprocess_run [py "./build/test_asm"; src_file] w with
  | (Exc e, w') =>
      if isinstance e FileNotFoundError then
        (print [Lit "Error: ./build/test_asm not found. Run ./scripts/build.sh first."] ;;
         mret (VBool false)) w'
      else (Exc e, w')
  | (Val result, w') => check_assembly result output_file w'
  end.

Definition sys_exit {A} (code : Z) : M A := raise (SystemExit code).

(** [argv[i]] *)
Definition item (argv : list str) (i : nat) : M str :=
  match argv !! i with
  | Some a => mret a
  | None => raise (Error (Err IndexError (py "list index out of range")))
  end.

Definition main (argv : list str) : M unit :=
  if negb (length argv =? 3)%nat then
    print [Lit "Usage: assemble_helper.py <source.src> <output.bin>"] ;;
    sys_exit 1
  else
    src_file ← item argv 1%nat;
    output_file ← item argv 2%nat;
    success ← assemble_and_save src_file output_file;
    sys_exit (if truthy success then 0 else 1)%Z.

(** Running the script with the given arguments: [sys.argv] is the script
    path followed by the arguments; the exit status is the code of
    [SystemExit], 1 after an uncaught exception, 0 otherwise. *)
Definition script (prog : str) (args : list str) (w : world) : Z * world :=
  match main (prog :: args) w with
  | (Val _, w') => (0%Z, w')
  | (Exc (SystemExit code), w') => (code, w')
  | (Exc e, w') => (1%Z, log (Traceback e) w')
  end.

End Script.

(** ** The vocabulary of the specification *)

(** "contains the substring" *)
Definition substring (needle hay : str) : Prop :=
  exists pre post, hay = pre ++ needle ++ post.

Inductive classification := Failed | UnexpectedOutput | Proceed.

(** The Output Classifier: the two substring tests in their fixed order. *)
Definition classify (text : str) : classification :=
  if contains (py "FAILED") text then Failed
  else if negb (contains (py "SUCCEEDED") text) then UnexpectedOutput
  else Proceed.

(** Every position of a text, left to right. *)
Fixpoint positions (prev : option N) (text : str) : list cursor :=
  Cursor prev text ::
  match text with
  | [] => []
  | c :: rest => positions (Some c) rest
  end.

(** The lines of a text that match the pattern: the positions where a line
    starts and the pattern matches. *)
Definition matches_here (cur : cursor) : bool :=
  match match_at hex_pattern cur with
  | Some _ => true
  | None => false
  end.

Definition matching_lines (text : str) : list cursor :=
  List.filter matches_here (List.filter at_bol (positions None text)).

(** The lines of a text, without their newlines. *)
Fixpoint lines_from (line : str) (text : str) : list str :=
  match text with
  | [] => [rev line]
  | c :: rest =>
      if c =? NL then rev line :: lines_from [] rest
      else lines_from (c :: line) rest
  end.

Definition lines (text : str) : list str := lines_from [] text.

(** A HexRecord: the byte-group substring of a line that, taken by itself,
    matches the pattern. *)
Definition hex_record (line : str) : option str :=
  group1 <$> match_at hex_pattern (Cursor None line).

(** The ByteSequence of the specification: every matching line, top to
    bottom, gives its tokens, left to right. *)
Definition byte_sequence (text : str) : res (list N) :=
  collect_bytes [] (omap hex_record (lines text)).

(** The same, reading "line matching the pattern" as a line start where the
    pattern matches in the whole text. *)
Definition byte_sequence_at_line_starts (text : str) : res (list N) :=
  collect_bytes []
    (omap (fun cur => group1 <$> match_at hex_pattern cur)
          (matching_lines text)).

(** Changing the case of a hex-digit letter. *)
Definition hex_swapcase (c : N) : N :=
  if (65 <=? c) && (c <=? 70) then c + 32
  else if (97 <=? c) && (c <=? 102) then c - 32
  else c.

(** [d] is [c], or [c] in the other case when [c] is a hex-digit letter. *)
Definition case_variant (c d : N) : Prop := d = c \/ d = hex_swapcase c.

(** Invoke, classify, extract and write all succeed. *)
Definition pipeline_succeeds (sys : os) (src_file output_file : str) : bool :=
  match os_run sys [py "./build/test_asm"; src_file] with
  | inl _ => false
  | inr result =>
      match classify (stdout result) with
      | Proceed =>
          match findall hex_pattern (stdout result) with
          | [] => false
          | matches =>
              match collect_bytes [] matches with
              | Exc _ => false
              | Val code_bytes =>
                  match mapM Byte.of_N code_bytes with
                  | None => false
                  | Some data =>
                      match os_open_wb sys output_file,
                            os_write sys output_file data with
                      | None, None => true
                      | _, _ => false
                      end
                  end
              end
          end
      | _ => false
      end
  end.

(** The same, and the success message is printed. *)
Definition run_succeeds (sys : os) (con : console) (src_file output_file : str)
  : bool :=
  match os_run sys [py "./build/test_asm"; src_file] with
  | inl _ => false
  | inr result =>
      match classify (stdout result) with
      | Proceed =>
          match findall hex_pattern (stdout result) with
          | [] => false
          | matches =>
              match collect_bytes [] matches with
              | Exc _ => false
              | Val code_bytes =>
                  match mapM Byte.of_N code_bytes with
                  | None => false
                  | Some data =>
                      match os_open_wb sys output_file,
                            os_write sys output_file data,
                            con (success_message (length code_bytes)
                                   output_file) with
                      | None, None, None => true
                      | _, _, _ => false
                      end
                  end
              end
          end
      | _ => false
      end
  end.

(** What the script sees of a run of the assembler: its standard output. *)
Definition stdout_of (r : error + completed) : error + str :=
  match r with
  | inl e => inl e
  | inr result => inr (stdout result)
  end.

(** ** Sample runs *)

(** The round-trip example of the specification. *)
Definition sample_dump : str :=
  py "SUCCEEDED" ++ [NL] ++ py "800: a9 00 8d 00 04" ++ [NL] ++ py "805: 60".

(** A dump whose byte pairs are not separated. *)
Definition glued_dump : str :=
  py "SUCCEEDED" ++ [NL] ++ py "800: a9b0".

(** A dump with four-digit addresses. *)
Definition wide_dump : str :=
  py "SUCCEEDED" ++ [NL] ++ py "0800: a9 00" ++ [NL] ++ py "0802: 60" ++ [NL].

(** A dump whose bytes stand on the line after the address. *)
Definition split_dump : str :=
  py "SUCCEEDED" ++ [NL] ++ py "800:" ++ [NL] ++ py "a9".

(** A dump of one line. *)
Definition short_dump : str :=
  py "SUCCEEDED" ++ [NL] ++ py "800: a9 00".

(** An operating system where the assembler prints [out] and every file
    operation works. *)
Definition printing (out : str) : os :=
  OS (fun _ => inr (Completed out [] 0%Z)) (fun _ => None) (fun _ _ => None).

(** An operating system where starting the assembler raises [e]. *)
Definition failing (e : error) : os :=
  OS (fun _ => inl e) (fun _ => None) (fun _ _ => None).

Definition empty_world : world := World [] ∅.

(** A terminal that takes every line. *)
Definition utf8_terminal : console := fun _ => None.

(** A terminal whose encoding is ASCII. *)
Definition ascii_terminal : console := fun _ =>
  Some (Err UnicodeEncodeError
          (py "'ascii' codec can't encode character '\u2713' in position 0: ordinal not in range(128)")).

Definition test_asm_argv (src_file : str) : list str :=
  [py "./build/test_asm"; src_file].

(** The two fixed messages of the script. *)
Definition hint : str :=
  py "Error: ./build/test_asm not found. Run ./scripts/build.sh first.".

Definition usage : str :=
  py "Usage: assemble_helper.py <source.src> <output.bin>".

(** An error of the operating system ends the writer with [False] when it is
    an [OSError], and goes on as an exception otherwise. *)
Definition after_error (e : error) : res value :=
  if issubclass (err_class e) OSError then Val (VBool false) else Exc (Error e).

(** ** Relating two runs of the matcher

    [R] relates the characters of two texts; a pattern respects [R] when
    none of its classes tells related characters apart. *)

Fixpoint respects (R : N -> N -> Prop) (r : regex) : Prop :=
  match r with
  | Class p => forall c d, R c d -> p c = p d
  | Bol => True
  | Cat r1 r2 => respects R r1 /\ respects R r2
  | Star r1 => respects R r1
  | Grp r1 => respects R r1
  end.

Definition cursor_rel (R : N -> N -> Prop) (cur cur' : cursor) : Prop :=
  option_Forall2 R (before cur) (before cur') /\
  Forall2 R (after cur) (after cur').

Definition found_rel (R : N -> N -> Prop) (m m' : found) : Prop :=
  cursor_rel R (fst m) (fst m') /\
  option_Forall2 (Forall2 R) (snd m) (snd m').

Definition cont_rel (R : N -> N -> Prop) (k k' : cont) : Prop :=
  forall cur cur' g g',
    cursor_rel R cur cur' -> option_Forall2 (Forall2 R) g g' ->
    option_Forall2 (found_rel R) (k cur g) (k' cur' g').

(** ** What a match is made of *)

(** Every class of [r] only admits characters with [Q]. *)
Fixpoint within (Q : N -> Prop) (r : regex) : Prop :=
  match r with
  | Class p => forall c, p c = true -> Q c
  | Bol => True
  | Cat r1 r2 => within Q r1 /\ within Q r2
  | Star r1 => within Q r1
  | Grp r1 => within Q r1
  end.

(** Every class inside a group of [r] only admits characters with [Q]. *)
Fixpoint groups_within (Q : N -> Prop) (r : regex) : Prop :=
  match r with
  | Class _ => True
  | Bol => True
  | Cat r1 r2 => groups_within Q r1 /\ groups_within Q r2
  | Star r1 => groups_within Q r1
  | Grp r1 => within Q r1
  end.

Definition group_of (Q : N -> Prop) (g : option str) : Prop :=
  forall s, g = Some s -> Forall Q s.

Definition hex_or_space (c : N) : Prop :=
  is_hex c = true \/ is_space c = true.

(** The character before the position reached by stepping over [mid]. *)
Definition step_over (prev : option N) (mid : str) : option N :=
  foldl (fun _ c => Some c) prev mid.

(** A matcher step only succeeds through its continuation, at a position
    further on in the same text, having consumed characters with [Q]. *)
Definition passes_on (Q : N -> Prop) (body : cont -> cont) : Prop :=
  forall k cur g res,
    body k cur g = Some res ->
    exists stop g' mid,
      k stop g' = Some res /\ after cur = mid ++ after stop /\
      before stop = step_over (before cur) mid /\ Forall Q mid.

(** A matcher step consults its continuation only further on in the text. *)
Definition looks_ahead (body : cont -> cont) : Prop :=
  forall k k' cur g,
    (forall stop h,
       (length (after stop) <= length (after cur))%nat -> k stop h = k' stop h) ->
    body k cur g = body k' cur g.

(** A matcher step hands on a group 1 made of characters with [Q]. *)
Definition keeps_group (Q : N -> Prop) (body : cont -> cont) : Prop :=
  forall k cur g res,
    group_of Q g -> body k cur g = Some res ->
    exists stop g', k stop g' = Some res /\ group_of Q g'.

(** A token that [int(_, 16)] reads: a non-empty run of hex digits. *)
Definition hex_token (token : str) : Prop :=
  token <> [] /\ Forall (fun c => is_hex c = true) token.

(** ** Further vocabulary: effects and dumps *)

(** The child processes a trace starts, in order. *)
Definition spawns (tr : list event) : list (list str) :=
  omap (fun ev => match ev with RunProcess argv => Some argv | _ => None end) tr.

(** The effects of a stage: events that start no child process, and at most
    the output file changed. *)
Definition bounded_effects (out : str) (w w' : world) : Prop :=
  (exists evs, trace w' = trace w ++ evs /\ spawns evs = []) /\
  (files w' = files w \/ exists data, files w' = <[out := data]> (files w)).


(** An operating system where the assembler prints [out], files open, and
    writing raises [e] after [reached] bytes. *)
Definition disk_full (out : str) (e : error) (reached : nat) : os :=
  OS (fun _ => inr (Completed out [] 0%Z)) (fun _ => None)
     (fun _ _ => Some (e, reached)).

(** The lower-case hex digit of a number below 16. *)
Definition hex_digit (n : N) : N :=
  if n <? 10 then 48 + n else 87 + n.

(** A byte as two hex digits. *)
Definition hex_pair (b : byte) : str :=
  [hex_digit (Byte.to_N b / 16); hex_digit (Byte.to_N b mod 16)].

(** The bytes of a dump line: pairs separated by one blank. *)
Fixpoint hex_pairs (data : list byte) : str :=
  match data with
  | [] => []
  | [b] => hex_pair b
  | b :: data' => hex_pair b ++ [32] ++ hex_pairs data'
  end.

(** A dump line in the format of the script's comment:
    [800: a9 00 8d 00 04]. *)
Definition dump_line (addr : str) (data : list byte) : str :=
  addr ++ [58; 32] ++ hex_pairs data.

(** The part of the pattern that is repeated inside the group: two hex
    digits and the whitespace after them. *)
Definition byte_pair : regex :=
  Cat (Twice (Class is_hex)) (Star (Class is_space)).

(** [s] is empty or begins with a character outside the class [p]. *)
Definition stops (p : N -> bool) (s : str) : Prop :=
  match s with
  | [] => True
  | c :: _ => p c = false
  end.

(** No line of [s] begins with a hex digit; [prev] is the character before
    [s]. *)
Fixpoint quiet (prev : option N) (s : str) : Prop :=
  match s with
  | [] => True
  | c :: s' =>
      (at_bol (Cursor prev []) = true -> is_hex c = false) /\ quiet (Some c) s'
  end.

(** [s] is empty or ends with a newline, so that what follows begins a
    line. *)
Definition ends_line (s : str) : Prop :=
  at_bol (Cursor (step_over None s) []) = true.

(** The files a trace opens for writing, in order. *)
Definition opens (tr : list event) : list str :=
  omap (fun ev => match ev with OpenWb path => Some path | _ => None end) tr.

(** The run gets as far as "Write binary file": the assembler ran, its text
    is classified Proceed and the pattern matched somewhere. *)
Definition reaches_writer (sys : os) (src_file : str) : bool :=
  match os_run sys [py "./build/test_asm"; src_file] with
  | inl _ => false
  | inr result =>
      match classify (stdout result), findall hex_pattern (stdout result) with
      | Proceed, _ :: _ => true
      | _, _ => false
      end
  end.

(** The tokens the script reads from a list of byte groups. *)
Definition tokens (matches : list str) : list str :=
  concat (map (fun m => split (strip m)) matches).

(** ** Proof automation *)

#[local] Arguments py : simpl never.
#[local] Arguments line_of : simpl never.

Ltac unfold_script :=
  unfold write_binary_file, parse_hex_dump, try_except, with_open_wb, finally,
    bytes, open_wb, file_write, print, sys_exit, item, raise, lift, log,
    mbind, M_bind, mret, M_ret.

(** ** Substring search *)

Lemma startswith_spec (p s : str) :
  startswith p s = true <-> exists post, s = p ++ post.
Proof.
  revert s. induction p as [|a p IH]; intros s; simpl.
  - split; [intros _; by exists s | done].
  - destruct s as [|b s].
    + split; [done | intros [post H]; discriminate H].
    + rewrite andb_true_iff, N.eqb_eq, IH. split.
      * intros [-> [post ->]]. by exists post.
      * intros [post H]. injection H as -> ->. split; [done | by exists post].
Qed.

Lemma contains_spec (needle hay : str) :
  contains needle hay = true <-> substring needle hay.
Proof.
  unfold substring. induction hay as [|c hay IH].
  - cbn [contains]. rewrite orb_false_r, startswith_spec. split.
    + intros [post H]. by exists [], post.
    + intros [pre [post H]]. symmetry in H.
      apply app_eq_nil in H as [-> H]. apply app_eq_nil in H as [-> ->].
      by exists [].
  - cbn [contains]. rewrite orb_true_iff, startswith_spec, IH. split.
    + intros [[post H] | [pre [post H]]].
      * by exists [], post.
      * exists (c :: pre), post. by rewrite H.
    + intros [[|c' pre] [post H]].
      * left. by exists post.
      * right. injection H as -> ->. by exists pre, post.
Qed.

Lemma contains_false (needle hay : str) :
  contains needle hay = false <-> ~ substring needle hay.
Proof.
  rewrite <- contains_spec. destruct (contains needle hay); naive_solver.
Qed.

(** ** What a match is made of: lemmas *)

Lemma consumed_app (cur stop : cursor) (mid : str) :
  after cur = mid ++ after stop -> consumed cur stop = mid.
Proof.
  intros H. unfold consumed. rewrite H, length_app.
  replace (length mid + length (after stop) - length (after stop))%nat
    with (length mid) by lia.
  by rewrite take_app_length.
Qed.

Section Within.
Context (Q : N -> Prop).

Lemma star_loop_consumes (body : cont -> cont) (fuel : nat) :
  passes_on Q body -> passes_on Q (fun k => star_loop body k fuel).
Proof.
  intros Hbody. induction fuel as [|fuel IH]; intros k cur g res; simpl.
  - intros Hk. exists cur, g, []. by repeat split.
  - destruct (body _ cur g) as [res'|] eqn:Hrun.
    + intros [= ->].
      apply Hbody in Hrun as (stop & g' & mid & Hk & Hmid & Hprev & HQ).
      destruct (_ <? _)%nat; [|done].
      apply IH in Hk as (stop' & g'' & mid' & Hk & Hmid' & Hprev' & HQ').
      exists stop', g'', (mid ++ mid'). split; [done|]. repeat split.
      * by rewrite Hmid, Hmid', app_assoc.
      * unfold step_over in *. by rewrite foldl_app, <- Hprev.
      * by apply Forall_app.
    + intros Hk. exists cur, g, []. by repeat split.
Qed.

Lemma run_consumes (r : regex) : within Q r -> passes_on Q (run r).
Proof.
  induction r as [p| |r1 IH1 r2 IH2|r1 IH1|r1 IH1]; intros Hr k cur g res;
    cbn [run].
  - destruct cur as [b [|c rest]]; simpl; [done|].
    destruct (p c) eqn:Hp; [|done]. intros Hk.
    exists (Cursor (Some c) rest), g, [c]. repeat split; [done|].
    constructor; [by apply Hr | constructor].
  - destruct (at_bol cur); [|done]. intros Hk.
    exists cur, g, []. by repeat split.
  - destruct Hr as [Hr1 Hr2]. intros Hrun.
    apply (IH1 Hr1) in Hrun as (stop & g' & mid & Hrun & Hmid & Hprev & HQ).
    apply (IH2 Hr2) in Hrun as (stop' & g'' & mid' & Hk & Hmid' & Hprev' & HQ').
    exists stop', g'', (mid ++ mid'). split; [done|]. repeat split.
    + by rewrite Hmid, Hmid', app_assoc.
    + unfold step_over in *. by rewrite foldl_app, <- Hprev.
    + by apply Forall_app.
  - apply (star_loop_consumes (run r1) _ (IH1 Hr)).
  - intros Hrun.
    apply (IH1 Hr) in Hrun as (stop & g' & mid & Hk & Hmid & Hprev & HQ).
    by exists stop, (Some (consumed cur stop)), mid.
Qed.

Lemma star_loop_group (body : cont -> cont) (fuel : nat) :
  keeps_group Q body -> keeps_group Q (fun k => star_loop body k fuel).
Proof.
  intros Hbody. induction fuel as [|fuel IH]; intros k cur g res Hg; simpl.
  - intros Hk. by exists cur, g.
  - destruct (body _ cur g) as [res'|] eqn:Hrun.
    + intros [= ->]. apply Hbody in Hrun as (stop & g' & Hk & Hg'); [|done].
      destruct (_ <? _)%nat; [|done]. by apply IH in Hk.
    + intros Hk. by exists cur, g.
Qed.

Lemma run_group (r : regex) : groups_within Q r -> keeps_group Q (run r).
Proof.
  induction r as [p| |r1 IH1 r2 IH2|r1 IH1|r1 IH1]; intros Hr k cur g res Hg;
    cbn [run].
  - destruct cur as [b [|c rest]]; simpl; [done|].
    destruct (p c); [|done]. intros Hk. by exists (Cursor (Some c) rest), g.
  - destruct (at_bol cur); [|done]. intros Hk. by exists cur, g.
  - destruct Hr as [Hr1 Hr2]. intros Hrun.
    apply (IH1 Hr1) in Hrun as (stop & g' & Hrun & Hg'); [|done].
    by apply (IH2 Hr2) in Hrun.
  - by apply (star_loop_group (run r1) _ (IH1 Hr)).
  - intros Hrun.
    apply (run_consumes r1 Hr) in Hrun as (stop & g' & mid & Hk & Hmid & _ & HQ).
    exists stop, (Some (consumed cur stop)). split; [done|].
    intros s [= <-]. by rewrite (consumed_app _ _ _ Hmid).
Qed.

Lemma match_at_group (r : regex) (cur : cursor) (m : found) :
  groups_within Q r -> match_at r cur = Some m -> Forall Q (group1 m).
Proof.
  intros Hr Hm. unfold match_at in Hm.
  apply (run_group r Hr) in Hm as (stop & g' & [= <-] & Hg'); [|done].
  unfold group1. simpl. destruct g' as [s|]; simpl; [by apply Hg' | constructor].
Qed.

Lemma findall_from_group (r : regex) (text : str) :
  groups_within Q r ->
  forall skip prev, Forall (Forall Q) (findall_from r skip prev text).
Proof.
  intros Hr. induction text as [|c rest IH]; intros skip prev;
    destruct skip; cbn [findall_from]; try done.
  - destruct (match_at r (Cursor prev [])) as [m|] eqn:Hm; [|done].
    constructor; [by eapply match_at_group | done].
  - destruct (match_at r (Cursor prev (c :: rest))) as [m|] eqn:Hm; [|done].
    constructor; [by eapply match_at_group | done].
Qed.

End Within.

(** ** The matcher never runs out of fuel *)

Lemma within_True (r : regex) : within (fun _ => True) r.
Proof. induction r; cbn; auto. Qed.

Lemma star_loop_looks_ahead (body : cont -> cont) (fuel : nat) :
  looks_ahead body -> looks_ahead (fun k => star_loop body k fuel).
Proof.
  intros Hbody. induction fuel as [|fuel IH]; intros k k' cur g Hk; simpl.
  - apply Hk. lia.
  - rewrite (Hk cur g) by lia.
    erewrite (Hbody _ _ cur g); [done|].
    intros stop h Hstop. simpl.
    destruct (_ <? _)%nat; [|done].
    apply IH. intros stop' h' Hstop'. apply Hk. lia.
Qed.

Lemma run_looks_ahead (r : regex) : looks_ahead (run r).
Proof.
  induction r as [p| |r1 IH1 r2 IH2|r1 IH1|r1 IH1]; intros k k' cur g Hk;
    cbn [run].
  - destruct cur as [b [|c rest]]; simpl in *; [done|].
    destruct (p c); [|done]. apply Hk. simpl. lia.
  - destruct (at_bol cur); [|done]. apply Hk. lia.
  - apply IH1. intros stop h Hstop. apply IH2.
    intros stop' h' Hstop'. apply Hk. lia.
  - by apply (star_loop_looks_ahead (run r1) _ IH1).
  - apply IH1. intros stop h Hstop. by apply Hk.
Qed.

(** More fuel than characters left changes nothing. *)
Lemma star_loop_fuel (body : cont -> cont) (k : cont) :
  looks_ahead body -> passes_on (fun _ => True) body ->
  forall fuel cur g,
    (length (after cur) <= fuel)%nat ->
    star_loop body k (S fuel) cur g = star_loop body k fuel cur g.
Proof.
  intros Hlocal Hpass. induction fuel as [|fuel IH]; intros cur g Hlen.
  - cbn [star_loop].
    destruct (body _ cur g) as [res|] eqn:Hrun; [|done].
    apply Hpass in Hrun as (stop & g' & mid & Hk & Hmid & _).
    apply (f_equal length) in Hmid. rewrite length_app in Hmid.
    destruct (Nat.ltb_spec (length (after stop)) (length (after cur)));
      [lia | done].
  - cbn [star_loop].
    erewrite (Hlocal _ _ cur g); [done|].
    intros stop h Hstop. simpl.
    destruct (Nat.ltb_spec (length (after stop)) (length (after cur)));
      [|done].
    apply IH. lia.
Qed.

Lemma run_Star_fuel (r : regex) (k : cont) (cur : cursor) (g : option str)
    (extra : nat) :
  star_loop (run r) k (length (after cur) + extra) cur g = run (Star r) k cur g.
Proof.
  cbn [run]. induction extra as [|extra IH].
  - by rewrite Nat.add_0_r.
  - rewrite Nat.add_succ_r, star_loop_fuel; [done| | |lia].
    + apply run_looks_ahead.
    + apply run_consumes, within_True.
Qed.

(** ** [findall] continues where the last match ended *)

Lemma match_at_end (r : regex) (cur : cursor) (m : found) :
  match_at r cur = Some m ->
  after cur = consumed cur (fst m) ++ after (fst m) /\
  before (fst m) = step_over (before cur) (consumed cur (fst m)).
Proof.
  unfold match_at. intros Hm.
  apply (run_consumes _ r (within_True r)) in Hm
    as (stop & g' & mid & [= <-] & Hmid & Hprev & _).
  simpl. by rewrite (consumed_app _ _ _ Hmid).
Qed.

(** A match of a pattern that begins with [^] and a class is not empty. *)
Lemma match_at_nonempty (p : N -> bool) (r1 r2 : regex) (cur : cursor)
    (m : found) :
  match_at (Cat Bol (Cat (Cat (Class p) r1) r2)) cur = Some m ->
  consumed cur (fst m) <> [].
Proof.
  intros Hm. destruct (match_at_end _ _ _ Hm) as [Hcur _].
  unfold match_at in Hm. cbn [run] in Hm.
  destruct (at_bol cur); [|done].
  destruct cur as [b [|c rest]]; simpl in Hm; [done|].
  destruct (p c); [|done].
  apply (run_consumes _ r1 (within_True r1)) in Hm
    as (stop & g' & mid & Hm & Hmid & _).
  apply (run_consumes _ r2 (within_True r2)) in Hm
    as (stop' & g'' & mid' & [= <-] & Hmid' & _).
  simpl in *. intros Hnil. rewrite Hnil in Hcur. simpl in Hcur.
  apply (f_equal length) in Hcur, Hmid, Hmid'.
  rewrite ?length_app in *. simpl in *. lia.
Qed.

Lemma findall_from_skip (r : regex) (mid rest : str) (prev : option N) :
  findall_from r (length mid) prev (mid ++ rest) =
  findall_from r 0 (step_over prev mid) rest.
Proof.
  revert prev. induction mid as [|c mid IH]; intros prev; [done|].
  cbn [length app findall_from]. apply IH.
Qed.

(** The two equations of [findall] for the script's pattern: after a match
    the scan goes on at the end of the match, otherwise at the next
    character. *)
Lemma findall_from_match (prev : option N) (text : str) (m : found) :
  match_at hex_pattern (Cursor prev text) = Some m ->
  findall_from hex_pattern 0 prev text =
  group1 m :: findall_from hex_pattern 0 (before (fst m)) (after (fst m)).
Proof.
  intros Hm.
  pose proof (match_at_nonempty _ _ _ _ _ Hm) as Hne.
  destruct (match_at_end _ _ _ Hm) as [Htext Hprev]. simpl in Htext, Hprev.
  destruct (consumed (Cursor prev text) (fst m)) as [|c mid] eqn:Hmid; [done|].
  destruct text as [|c' rest]; [done|].
  cbn [findall_from]. rewrite Hm, Hmid. f_equal.
  simpl in Htext. injection Htext as -> ->.
  replace (length (c :: mid) - 1)%nat with (length mid) by (simpl; lia).
  rewrite findall_from_skip. by rewrite Hprev.
Qed.

Lemma findall_from_no_match (prev : option N) (c : N) (rest : str) :
  match_at hex_pattern (Cursor prev (c :: rest)) = None ->
  findall_from hex_pattern 0 prev (c :: rest) =
  findall_from hex_pattern 0 (Some c) rest.
Proof. intros Hm. cbn [findall_from]. by rewrite Hm. Qed.

(** ** Every token of a byte group is read by [int(_, 16)] *)

Lemma hex_pattern_groups : groups_within hex_or_space hex_pattern.
Proof.
  cbn. unfold hex_or_space. repeat split; intros c Hc; auto.
Qed.

Lemma findall_groups (text : str) :
  Forall (Forall hex_or_space) (findall hex_pattern text).
Proof. apply findall_from_group, hex_pattern_groups. Qed.

Lemma Forall_lstrip (Q : N -> Prop) (s : str) :
  Forall Q s -> Forall Q (lstrip s).
Proof.
  induction 1 as [|c s Hc Hs IH]; cbn [lstrip]; [done|].
  destruct (is_space c); [done | by constructor].
Qed.

Lemma Forall_strip (Q : N -> Prop) (s : str) :
  Forall Q s -> Forall Q (strip s).
Proof.
  intros H. unfold strip, rstrip.
  by apply Forall_rev, Forall_lstrip, Forall_rev, Forall_lstrip.
Qed.

Lemma split_from_tokens (s : str) :
  Forall hex_or_space s ->
  forall word,
    Forall (fun c => is_hex c = true) word ->
    Forall hex_token (split_from word s).
Proof.
  induction 1 as [|c s Hc Hs IH]; intros word Hword; cbn [split_from].
  - destruct word as [|a word]; [done|]. constructor; [|done]. split.
    + simpl. by destruct (rev word).
    + by apply Forall_rev.
  - destruct (is_space c) eqn:Hspace.
    + destruct word as [|a word]; [by apply IH|].
      constructor; [|by apply IH]. split.
      * simpl. by destruct (rev word).
      * by apply Forall_rev.
    + apply IH. constructor; [|done].
      destruct Hc as [Hc|Hc]; [done | congruence].
Qed.

Lemma hex_value_is_Some (c : N) : is_hex c = true -> is_Some (hex_value c).
Proof.
  unfold is_hex, hex_value.
  destruct ((48 <=? c) && (c <=? 57)); [eauto|].
  destruct ((97 <=? c) && (c <=? 102)); [eauto|].
  destruct ((65 <=? c) && (c <=? 70)); [eauto | done].
Qed.

Lemma int16_is_Some (token : str) : hex_token token -> is_Some (int16 token).
Proof.
  intros [Hne Hhex]. unfold int16. destruct token as [|c token]; [done|].
  generalize 0. revert Hhex. generalize (c :: token). clear.
  induction 1 as [|c s Hc Hs IH]; intros acc; cbn [int16_from]; [eauto|].
  destruct (hex_value_is_Some c Hc) as [d ->]. apply IH.
Qed.

Lemma append_tokens_total (tokens : list str) :
  Forall hex_token tokens ->
  forall acc, exists code_bytes, append_tokens acc tokens = Val code_bytes.
Proof.
  induction 1 as [|t ts Ht Hts IH]; intros acc; cbn [append_tokens]; [eauto|].
  destruct (int16_is_Some t Ht) as [n ->]. apply IH.
Qed.

Lemma collect_bytes_total (matches : list str) :
  Forall (Forall hex_or_space) matches ->
  forall acc, exists code_bytes, collect_bytes acc matches = Val code_bytes.
Proof.
  induction 1 as [|m ms Hm Hms IH]; intros acc; cbn [collect_bytes]; [eauto|].
  destruct (append_tokens_total (split (strip m))) with (acc := acc)
    as [code_bytes ->]; [|apply IH].
  apply split_from_tokens; [by apply Forall_strip | constructor].
Qed.

(** Every token that the script hands to [int(_, 16)] is a non-empty run of
    hex digits. *)
Lemma findall_tokens_hex (text : str) (m token : str) :
  m ∈ findall hex_pattern text -> token ∈ split (strip m) -> hex_token token.
Proof.
  intros Hm Htok.
  pose proof (findall_groups text) as Hall.
  rewrite Forall_forall in Hall. specialize (Hall m Hm).
  pose proof (split_from_tokens (strip m) (Forall_strip _ _ Hall) []
                (Forall_nil_2 _)) as Htoks.
  rewrite Forall_forall in Htoks. by apply Htoks.
Qed.

(** "Collect all bytes" never raises on what [findall] returns. *)
Lemma collect_bytes_findall (text : str) :
  exists code_bytes,
    collect_bytes [] (findall hex_pattern text) = Val code_bytes.
Proof. apply collect_bytes_total, findall_groups. Qed.

(** ** Related texts match alike *)

Section Relational.
Context (R : N -> N -> Prop).
Hypothesis R_newline : forall c d, R c d -> (c =? NL) = (d =? NL).
Hypothesis R_space : forall c d, R c d -> is_space c = is_space d.
Hypothesis R_value : forall c d, R c d -> hex_value c = hex_value d.

Lemma at_bol_rel (cur cur' : cursor) :
  cursor_rel R cur cur' -> at_bol cur = at_bol cur'.
Proof using R_newline.
  intros [Hb _]. unfold at_bol. destruct Hb; [by apply R_newline | done].
Qed.

Lemma consumed_rel (cur cur' stop stop' : cursor) :
  cursor_rel R cur cur' -> cursor_rel R stop stop' ->
  Forall2 R (consumed cur stop) (consumed cur' stop').
Proof.
  intros [_ H] [_ H']. unfold consumed.
  rewrite (Forall2_length _ _ _ H), (Forall2_length _ _ _ H').
  by apply Forall2_take.
Qed.

Lemma star_loop_rel (body body' : cont -> cont) :
  (forall k k', cont_rel R k k' -> cont_rel R (body k) (body' k')) ->
  forall fuel k k',
    cont_rel R k k' ->
    cont_rel R (star_loop body k fuel) (star_loop body' k' fuel).
Proof.
  intros Hbody fuel k k' Hk.
  induction fuel as [|fuel IH]; intros cur cur' g g' Hcur Hg; simpl.
  - by apply Hk.
  - lazymatch goal with
    | |- option_Forall2 _ (match body ?k1 _ _ with _ => _ end)
                          (match body' ?k1' _ _ with _ => _ end) =>
        assert (Hk1 : cont_rel R k1 k1')
    end.
    { intros c c' h h' Hc Hh.
      rewrite (Forall2_length _ _ _ (proj2 Hc)), (Forall2_length _ _ _ (proj2 Hcur)).
      destruct (_ <? _)%nat; [by apply IH | constructor]. }
    pose proof (Hbody _ _ Hk1 cur cur' g g' Hcur Hg) as Hres.
    inversion Hres; [by constructor | by apply Hk].
Qed.

Lemma run_rel (r : regex) :
  respects R r ->
  forall k k', cont_rel R k k' -> cont_rel R (run r k) (run r k').
Proof using R_newline.
  induction r as [p| |r1 IH1 r2 IH2|r1 IH1|r1 IH1];
    intros Hr k k' Hk cur cur' g g' Hcur Hg; cbn [run].
  - destruct cur as [b a], cur' as [b' a']. destruct Hcur as [Hb Ha].
    simpl in *. destruct Ha as [|c d a a' Hcd Ha]; [constructor|].
    rewrite (Hr c d Hcd). destruct (p d); [|constructor].
    apply Hk; [|done]. split; simpl; [by constructor | done].
  - rewrite (at_bol_rel _ _ Hcur).
    destruct (at_bol cur'); [by apply Hk | constructor].
  - destruct Hr as [Hr1 Hr2]. apply IH1; auto.
  - rewrite (Forall2_length _ _ _ (proj2 Hcur)).
    apply star_loop_rel; auto.
  - apply IH1; [done| |done|done].
    intros c c' h h' Hc Hh. apply Hk; [done|].
    constructor. by apply consumed_rel.
Qed.

Lemma match_at_rel (r : regex) (cur cur' : cursor) :
  respects R r -> cursor_rel R cur cur' ->
  option_Forall2 (found_rel R) (match_at r cur) (match_at r cur').
Proof using R_newline.
  intros Hr Hcur. unfold match_at. apply run_rel; [done| |done|constructor].
  intros c c' h h' Hc Hh. by constructor.
Qed.

Lemma group1_rel (m m' : found) :
  found_rel R m m' -> Forall2 R (group1 m) (group1 m').
Proof.
  intros [_ Hg]. unfold group1. destruct Hg; simpl; [done | constructor].
Qed.

Lemma findall_from_rel (r : regex) (text text' : str) :
  respects R r -> Forall2 R text text' ->
  forall skip prev prev',
    option_Forall2 R prev prev' ->
    Forall2 (Forall2 R) (findall_from r skip prev text)
                        (findall_from r skip prev' text').
Proof using R_newline.
  intros Hr Htext. induction Htext as [|c d text text' Hcd Htext IH];
    intros skip prev prev' Hprev.
  - destruct skip; cbn [findall_from]; [|constructor].
    assert (Hcur : cursor_rel R (Cursor prev []) (Cursor prev' []))
      by (split; simpl; [done | constructor]).
    destruct (match_at_rel r _ _ Hr Hcur) as [m m' Hm|]; [|constructor].
    constructor; [by apply group1_rel | constructor].
  - destruct skip; cbn [findall_from].
    2:{ apply IH. by constructor. }
    assert (Hcur : cursor_rel R (Cursor prev (c :: text))
                                (Cursor prev' (d :: text')))
      by (split; simpl; [done | by constructor]).
    destruct (match_at_rel r _ _ Hr Hcur) as [m m' Hm|].
    + constructor; [by apply group1_rel|].
      rewrite (Forall2_length _ _ _ (consumed_rel _ _ _ _ Hcur (proj1 Hm))).
      apply IH. by constructor.
    + apply IH. by constructor.
Qed.

Lemma positions_rel (text text' : str) :
  Forall2 R text text' ->
  forall prev prev',
    option_Forall2 R prev prev' ->
    Forall2 (cursor_rel R) (positions prev text) (positions prev' text').
Proof.
  induction 1 as [|c d text text' Hcd Htext IH]; intros prev prev' Hprev;
    cbn [positions].
  - constructor; [|constructor]. split; simpl; [done | constructor].
  - constructor; [split; simpl; [done | by constructor]|].
    apply IH. by constructor.
Qed.

Lemma filter_rel {A} (P : A -> A -> Prop) (f : A -> bool) (l l' : list A) :
  (forall x y, P x y -> f x = f y) ->
  Forall2 P l l' -> Forall2 P (List.filter f l) (List.filter f l').
Proof.
  intros Hf. induction 1 as [|x y l l' Hxy Hl IH]; cbn [List.filter]; [constructor|].
  rewrite (Hf x y Hxy). destruct (f y); [by constructor | done].
Qed.

Lemma lstrip_rel (s s' : str) :
  Forall2 R s s' -> Forall2 R (lstrip s) (lstrip s').
Proof using R_space.
  induction 1 as [|c d s s' Hcd Hs IH]; cbn [lstrip]; [constructor|].
  rewrite (R_space c d Hcd). destruct (is_space d); [done | by constructor].
Qed.

Lemma rev_rel (s s' : str) : Forall2 R s s' -> Forall2 R (rev s) (rev s').
Proof.
  induction 1 as [|c d s s' Hcd Hs IH]; cbn [rev]; [constructor|].
  apply Forall2_app; [done | by repeat constructor].
Qed.

Lemma strip_rel (s s' : str) :
  Forall2 R s s' -> Forall2 R (strip s) (strip s').
Proof using R_space.
  intros H. unfold strip, rstrip.
  by apply rev_rel, lstrip_rel, rev_rel, lstrip_rel.
Qed.

Lemma split_from_rel (s s' : str) :
  Forall2 R s s' ->
  forall word word',
    Forall2 R word word' ->
    Forall2 (Forall2 R) (split_from word s) (split_from word' s').
Proof using R_space.
  induction 1 as [|c d s s' Hcd Hs IH]; intros word word' Hword;
    cbn [split_from].
  - destruct Hword; [constructor|].
    constructor; [|constructor]. apply rev_rel. by constructor.
  - rewrite (R_space c d Hcd). destruct (is_space d).
    + destruct Hword; [apply IH; constructor|].
      constructor; [apply rev_rel; by constructor | apply IH; constructor].
    + apply IH. by constructor.
Qed.

Lemma int16_rel (token token' : str) :
  Forall2 R token token' -> int16 token = int16 token'.
Proof using R_value.
  assert (H : forall s s', Forall2 R s s' ->
                           forall acc, int16_from acc s = int16_from acc s').
  { induction 1 as [|c d s s' Hcd Hs IH]; intros acc; cbn [int16_from]; [done|].
    rewrite (R_value c d Hcd). destruct (hex_value d); [apply IH | done]. }
  intros Htok. unfold int16. destruct Htok; [done|].
  apply H. by constructor.
Qed.

Lemma append_tokens_rel (tokens tokens' : list str) :
  Forall2 (Forall2 R) tokens tokens' ->
  forall acc, append_tokens acc tokens = append_tokens acc tokens'.
Proof using R_value.
  induction 1 as [|t t' ts ts' Ht Hts IH]; intros acc; cbn [append_tokens]; [done|].
  rewrite (int16_rel t t' Ht). destruct (int16 t'); [apply IH | done].
Qed.

Lemma collect_bytes_rel (matches matches' : list str) :
  Forall2 (Forall2 R) matches matches' ->
  forall acc, collect_bytes acc matches = collect_bytes acc matches'.
Proof using R_space R_value.
  induction 1 as [|m m' ms ms' Hm Hms IH]; intros acc; cbn [collect_bytes]; [done|].
  rewrite (append_tokens_rel (split (strip m)) (split (strip m'))).
  - destruct (append_tokens acc (split (strip m'))); [apply IH | done].
  - apply split_from_rel; [by apply strip_rel | constructor].
Qed.

End Relational.

(** ** The stages of the script *)

(** The classifier in terms of substrings. *)
Lemma classify_Failed (text : str) :
  classify text = Failed <-> substring (py "FAILED") text.
Proof.
  rewrite <- contains_spec. unfold classify.
  destruct (contains (py "FAILED") text); [done|].
  destruct (contains (py "SUCCEEDED") text); done.
Qed.

Lemma classify_UnexpectedOutput (text : str) :
  classify text = UnexpectedOutput <->
  ~ substring (py "FAILED") text /\ ~ substring (py "SUCCEEDED") text.
Proof.
  rewrite <- !contains_false. unfold classify.
  destruct (contains (py "FAILED") text);
    destruct (contains (py "SUCCEEDED") text); simpl; intuition congruence.
Qed.

Lemma classify_Proceed (text : str) :
  classify text = Proceed <->
  ~ substring (py "FAILED") text /\ substring (py "SUCCEEDED") text.
Proof.
  rewrite <- contains_false, <- contains_spec. unfold classify.
  destruct (contains (py "FAILED") text);
    destruct (contains (py "SUCCEEDED") text); simpl; intuition congruence.
Qed.

(** The script after the assembler has run, by classification. *)
Lemma check_assembly_classify (sys : os) (con : console) (result : completed)
    (out : str) (w : world) :
  check_assembly sys con result out w =
  match classify (stdout result) with
  | Failed =>
      (Val (VBool false),
       log (Print (stdout result)) (log (Print (py "Assembly FAILED")) w))
  | UnexpectedOutput =>
      (Val (VBool false),
       log (Print (stdout result))
         (log (Print (py "Unexpected output from test_asm")) w))
  | Proceed => parse_hex_dump sys con (stdout result) out w
  end.
Proof.
  unfold check_assembly, classify.
  destruct (contains (py "FAILED") (stdout result)); [done|].
  destruct (contains (py "SUCCEEDED") (stdout result)); done.
Qed.

Lemma assemble_and_save_ran (sys : os) (con : console) (src out : str)
    (result : completed) (w : world) :
  os_run sys (test_asm_argv src) = inr result ->
  assemble_and_save sys con src out w =
  check_assembly sys con result out (log (RunProcess (test_asm_argv src)) w).
Proof.
  intros H. unfold assemble_and_save, subprocess_run.
  fold (test_asm_argv src). by rewrite H.
Qed.

Lemma print_plain (con : console) (ps : list piece) (w : world) :
  plain ps = true ->
  print con ps w = (Val tt, log (Print (line_of ps)) w).
Proof. intros H. unfold print. by rewrite H. Qed.

Lemma print_success_pieces (con : console) (count : nat) (out : str)
    (w : world) :
  print con (success_pieces count out) w =
  match con (success_message count out) with
  | None => (Val tt, log (Print (success_message count out)) w)
  | Some e => (Exc (Error e), w)
  end.
Proof. reflexivity. Qed.

Lemma write_binary_file_result (sys : os) (con : console) (out : str)
    (code_bytes : list N) (w : world) :
  fst (write_binary_file sys con out code_bytes w) =
  match os_open_wb sys out with
  | Some e => after_error e
  | None =>
      match mapM Byte.of_N code_bytes with
      | None => Exc (Error (Err ValueError (py "bytes must be in range(0, 256)")))
      | Some data =>
          match os_write sys out data with
          | Some (e, _) => after_error e
          | None =>
              match con (success_message (length code_bytes) out) with
              | Some e => after_error e
              | None => Val (VBool true)
              end
          end
      end
  end.
Proof.
  unfold_script. unfold after_error.
  destruct (os_open_wb sys out) as [e|]; simpl.
  { by destruct (issubclass (err_class e) OSError). }
  destruct (mapM Byte.of_N code_bytes) as [data|]; simpl; [|done].
  destruct (os_write sys out data) as [[e reached]|]; simpl.
  { by destruct (issubclass (err_class e) OSError). }
  change (line_of (success_pieces (length code_bytes) out))
    with (success_message (length code_bytes) out).
  destruct (con (success_message (length code_bytes) out)) as [e|]; simpl;
    [|done].
  by destruct (issubclass (err_class e) OSError).
Qed.

Lemma parse_hex_dump_result (sys : os) (con : console) (text out : str)
    (w : world) :
  fst (parse_hex_dump sys con text out w) =
  match findall hex_pattern text with
  | [] => Val (VBool false)
  | matches =>
      match collect_bytes [] matches with
      | Exc e => Exc e
      | Val code_bytes => fst (write_binary_file sys con out code_bytes w)
      end
  end.
Proof.
  unfold parse_hex_dump.
  destruct (findall hex_pattern text) as [|m matches]; [done|].
  unfold lift, mbind, M_bind.
  by destruct (collect_bytes [] (m :: matches)).
Qed.

Lemma collect_bytes_error (matches : list str) (code_bytes : list N) (e : exn) :
  collect_bytes code_bytes matches = Exc e -> exists err, e = Error err.
Proof.
  assert (Htok : forall toks acc, append_tokens acc toks = Exc e ->
                                  exists err, e = Error err).
  { induction toks as [|t toks IH]; intros acc; simpl; [done|].
    destruct (int16 t); [apply IH|].
    intros [= <-]. eauto. }
  revert code_bytes. induction matches as [|m matches IH]; intros acc; simpl.
  - done.
  - destruct (append_tokens acc (split (strip m))) eqn:E; [apply IH|].
    intros [= <-]. eauto.
Qed.

(** The result of [assemble_and_save]: [True] exactly when every stage
    succeeds and the success message is printed; otherwise [False] or an
    error, never [SystemExit]. *)
Lemma assemble_and_save_result (sys : os) (con : console) (src out : str)
    (w : world) :
  match fst (assemble_and_save sys con src out w) with
  | Val v => v = VBool (run_succeeds sys con src out)
  | Exc e => run_succeeds sys con src out = false /\ exists err, e = Error err
  end.
Proof.
  unfold assemble_and_save, subprocess_run, run_succeeds.
  destruct (os_run sys [py "./build/test_asm"; src]) as [e|result].
  { destruct (isinstance (Error e) FileNotFoundError); simpl; eauto. }
  rewrite check_assembly_classify.
  destruct (classify (stdout result)); [done|done|].
  rewrite parse_hex_dump_result.
  destruct (findall hex_pattern (stdout result)) as [|m matches]; [done|].
  destruct (collect_bytes [] (m :: matches)) as [code_bytes|e] eqn:Ecol.
  2:{ split; [done|]. by eapply collect_bytes_error. }
  rewrite write_binary_file_result. unfold after_error.
  destruct (os_open_wb sys out) as [e|].
  { destruct (issubclass (err_class e) OSError);
      destruct (mapM Byte.of_N code_bytes); eauto. }
  destruct (mapM Byte.of_N code_bytes) as [data|]; [|eauto].
  destruct (os_write sys out data) as [[e reached]|].
  { destruct (issubclass (err_class e) OSError);
      destruct (con (success_message (length code_bytes) out)); eauto. }
  destruct (con (success_message (length code_bytes) out)) as [e|]; [|done].
  destruct (issubclass (err_class e) OSError); eauto.
Qed.

Lemma run_succeeds_pipeline (sys : os) (con : console) (src out : str) :
  run_succeeds sys con src out = true -> pipeline_succeeds sys src out = true.
Proof.
  unfold run_succeeds, pipeline_succeeds.
  destruct (os_run sys [py "./build/test_asm"; src]) as [e|result]; [done|].
  destruct (classify (stdout result)); [done|done|].
  destruct (findall hex_pattern (stdout result)) as [|m matches]; [done|].
  destruct (collect_bytes [] (m :: matches)) as [code_bytes|e]; [|done].
  destruct (mapM Byte.of_N code_bytes) as [data|]; [|done].
  destruct (os_open_wb sys out); [done|].
  by destruct (os_write sys out data).
Qed.

(** The script with two arguments. *)
Lemma script_two_args (sys : os) (con : console) (prog src out : str)
    (w : world) :
  script sys con prog [src; out] w =
  match assemble_and_save sys con src out w with
  | (Val v, w') => ((if truthy v then 0 else 1)%Z, w')
  | (Exc (SystemExit code), w') => (code, w')
  | (Exc e, w') => (1%Z, log (Traceback e) w')
  end.
Proof.
  unfold script, main. simpl. unfold_script. simpl.
  destruct (assemble_and_save sys con src out w) as [[v|e] w']; [|done].
  by destruct (truthy v).
Qed.

(** The script with another number of arguments. *)
Lemma script_usage (sys : os) (con : console) (prog : str) (args : list str)
    (w : world) :
  length args <> 2%nat ->
  script sys con prog args w =
  (1%Z, World (trace w ++ [Print usage]) (files w)).
Proof.
  intros Hlen. unfold script, main.
  replace (length (prog :: args) =? 3)%nat with false
    by (symmetry; apply Nat.eqb_neq; simpl; lia).
  reflexivity.
Qed.

(** ** Order of the bytes *)

(** C1: on the round-trip example of the specification, which is classified
    Proceed, two lines match the pattern, but [findall] returns one byte
    group. The script's byte sequence a9 00 8d 00 04 80 is
    not the concatenation of the tokens of the matching lines, whether a
    line is matched by itself (a9 00 8d 00 04 60) or at its start in the
    whole text (a9 00 8d 00 04 80 60): the line [805: 60] is skipped and the
    token 80 belongs to no line's byte group. *)
Theorem C1_order_preservation_example :
  classify sample_dump = Proceed /\
  collect_bytes [] (findall hex_pattern sample_dump)
  = Val [169; 0; 141; 0; 4; 128] /\
  byte_sequence sample_dump = Val [169; 0; 141; 0; 4; 96] /\
  byte_sequence_at_line_starts sample_dump = Val [169; 0; 141; 0; 4; 128; 96] /\
  length (matching_lines sample_dump) = 2%nat /\
  length (findall hex_pattern sample_dump) = 1%nat.
Proof. repeat split; vm_compute; reflexivity. Qed.

(** ** The Output Classifier *)

(** C2: the Output Classifier is the three-case function of the
    specification. When the captured text contains [FAILED] the run is
    classified Failed, whether or not [SUCCEEDED] occurs too; otherwise,
    without [SUCCEEDED], it is UnexpectedOutput; otherwise Proceed. Failed
    and UnexpectedOutput print their diagnostic and the text and return
    [False] with no further effect; only Proceed goes on to the extraction. *)
Theorem C2_classifier (sys : os) (con : console) (src out text err : str)
    (rc : Z) (w : world) :
  os_run sys (test_asm_argv src) = inr (Completed text err rc) ->
  let w1 := log (RunProcess (test_asm_argv src)) w in
  (classify text = Failed <-> substring (py "FAILED") text) /\
  (classify text = UnexpectedOutput <->
     ~ substring (py "FAILED") text /\ ~ substring (py "SUCCEEDED") text) /\
  (classify text = Proceed <->
     ~ substring (py "FAILED") text /\ substring (py "SUCCEEDED") text) /\
  assemble_and_save sys con src out w =
  match classify text with
  | Failed =>
      (Val (VBool false),
       World (trace w1 ++ [Print (py "Assembly FAILED"); Print text]) (files w))
  | UnexpectedOutput =>
      (Val (VBool false),
       World (trace w1 ++ [Print (py "Unexpected output from test_asm");
                           Print text]) (files w))
  | Proceed => parse_hex_dump sys con text out w1
  end.
Proof.
  intros Hrun w1.
  split; [apply classify_Failed|].
  split; [apply classify_UnexpectedOutput|].
  split; [apply classify_Proceed|].
  rewrite (assemble_and_save_ran _ _ _ _ _ _ Hrun), check_assembly_classify.
  simpl stdout. fold w1.
  destruct (classify text); unfold log; simpl; by rewrite <- ?app_assoc.
Qed.

Lemma C2_classifier_witness :
  let text := py "SUCCEEDED then FAILED" in
  classify text = Failed /\
  assemble_and_save (printing text) utf8_terminal (py "a.src") (py "a.bin")
    empty_world =
  (Val (VBool false),
   World [RunProcess (test_asm_argv (py "a.src"));
          Print (py "Assembly FAILED"); Print text] ∅).
Proof.
  intros text.
  pose proof (C2_classifier (printing text) utf8_terminal (py "a.src")
                (py "a.bin") text [] 0%Z empty_world eq_refl)
    as (_ & _ & _ & H).
  split; [reflexivity | exact H].
Defined.

(** ** The round-trip example *)

(** C3: on the round-trip example of the specification the run is classified
    Proceed and a file of six bytes is written, but [findall] returns one
    byte group that runs over the line break into the address of the third
    line: the bytes are a9 00 8d 00 04 80, and the last one is not 60. A
    newline at the end of the text changes nothing. *)
Theorem C3_round_trip_example :
  classify sample_dump = Proceed /\
  collect_bytes [] (findall hex_pattern (sample_dump ++ [NL]))
  = Val [169; 0; 141; 0; 4; 128] /\
  findall hex_pattern sample_dump = [py "a9 00 8d 00 04" ++ [NL] ++ py "80"] /\
  collect_bytes [] (findall hex_pattern sample_dump)
  = Val [169; 0; 141; 0; 4; 128] /\
  assemble_and_save (printing sample_dump) utf8_terminal (py "a.src")
    (py "a.bin") empty_world
  = (Val (VBool true),
     World [RunProcess (test_asm_argv (py "a.src"));
            OpenWb (py "a.bin");
            WriteBytes (py "a.bin") [xa9; x00; x8d; x00; x04; x80];
            Close (py "a.bin");
            Print (success_message 6 (py "a.bin"))]
           (<[py "a.bin" := [xa9; x00; x8d; x00; x04; x80]]> ∅)).
Proof. repeat split; vm_compute; reflexivity. Qed.

(** ** Range of the bytes *)

(** C4: a line whose byte pairs are not separated matches the pattern, its
    byte group is one token of four digits, and the integer 43440 is put
    into the sequence; [bytes] then raises [ValueError] after the output
    file has been opened, and the exception is not caught. With four-digit
    addresses the address of the next line becomes such a token. *)
Theorem C4_byte_range_example :
  findall hex_pattern glued_dump = [py "a9b0"] /\
  collect_bytes [] (findall hex_pattern glued_dump) = Val [43440] /\
  assemble_and_save (printing glued_dump) utf8_terminal (py "a.src")
    (py "a.bin") empty_world
  = (Exc (Error (Err ValueError (py "bytes must be in range(0, 256)"))),
     World [RunProcess (test_asm_argv (py "a.src"));
            OpenWb (py "a.bin"); Close (py "a.bin")]
           (<[py "a.bin" := []]> ∅)) /\
  collect_bytes [] (findall hex_pattern wide_dump) = Val [169; 0; 2050].
Proof. repeat split; vm_compute; reflexivity. Qed.

(** ** No hex dump *)






(** C5: the captured text [SUCCEEDED], [800:], [a9] (three lines) is
    classified Proceed and none of its lines matches the pattern, yet
    [findall] returns the byte group [a9]: the blank after the colon may be
    the line break, so the match that starts on the second line ends on the
    third. The script opens the output file, writes the byte a9, returns
    [True] and exits with status 0; it does not report NoHexDumpFound. *)
Theorem C5_line_break_example :
  classify split_dump = Proceed /\
  lines split_dump = [py "SUCCEEDED"; py "800:"; py "a9"] /\
  omap hex_record (lines split_dump) = [] /\
  findall hex_pattern split_dump = [py "a9"] /\
  length (matching_lines split_dump) = 1%nat /\
  assemble_and_save (printing split_dump) utf8_terminal (py "a.src")
    (py "a.bin") empty_world
  = (Val (VBool true),
     World [RunProcess (test_asm_argv (py "a.src"));
            OpenWb (py "a.bin"); WriteBytes (py "a.bin") [xa9];
            Close (py "a.bin"); Print (success_message 1 (py "a.bin"))]
           (<[py "a.bin" := [xa9]]> ∅)) /\
  fst (script (printing split_dump) utf8_terminal (py "assemble_helper.py")
         [py "a.src"; py "a.bin"] empty_world) = 0%Z.
Proof. repeat split; vm_compute; reflexivity. Qed.

(** ** Exit status *)

(** With two arguments the exit status is 0 exactly when every stage
    succeeds and the success message is printed. *)
Lemma script_status (sys : os) (con : console) (prog src out : str)
    (w : world) :
  fst (script sys con prog [src; out] w) =
  if run_succeeds sys con src out then 0%Z else 1%Z.
Proof.
  rewrite script_two_args.
  pose proof (assemble_and_save_result sys con src out w) as H.
  destruct (assemble_and_save sys con src out w) as [[v|e] w']; simpl in *.
  - subst v. simpl. by destruct (run_succeeds sys con src out).
  - destruct H as [-> [err ->]]. done.
Qed.

(** C6: the assembler prints [SUCCEEDED] and the line [800: a9 00], and the
    output file can be opened and written, so that invoke, classify,
    extract and write all succeed; standard output cannot encode the check
    mark of the success message. The script writes the two bytes, [print]
    raises [UnicodeEncodeError], which [except IOError] does not catch, and
    the exit status is 1, not 0. On a terminal that takes the line the
    status is 0; with one argument the usage line is the only effect and
    the status is 1. *)
Theorem C6_exit_status_example :
  pipeline_succeeds (printing short_dump) (py "a.src") (py "a.bin") = true /\
  script (printing short_dump) ascii_terminal (py "assemble_helper.py")
    [py "a.src"; py "a.bin"] empty_world
  = (1%Z,
     World [RunProcess (test_asm_argv (py "a.src"));
            OpenWb (py "a.bin"); WriteBytes (py "a.bin") [xa9; x00];
            Close (py "a.bin");
            Traceback (Error (Err UnicodeEncodeError
              (py "'ascii' codec can't encode character '\u2713' in position 0: ordinal not in range(128)")))]
           (<[py "a.bin" := [xa9; x00]]> ∅)) /\
  fst (script (printing short_dump) utf8_terminal (py "assemble_helper.py")
         [py "a.src"; py "a.bin"] empty_world) = 0%Z /\
  script (printing short_dump) ascii_terminal (py "assemble_helper.py")
    [py "a.src"] empty_world
  = (1%Z, World [Print usage] ∅).
Proof. repeat split; vm_compute; reflexivity. Qed.

(** ** The Binary Writer *)

Lemma bytes_to_N (data : list byte) :
  mapM Byte.of_N (map Byte.to_N data) = Some data.
Proof.
  induction data as [|b data IH]; [done|].
  cbn. rewrite Byte.of_to_N. cbn. fold (mapM Byte.of_N). by rewrite IH.
Qed.

Lemma bytes_in_range (code_bytes : list N) (data : list byte) :
  mapM Byte.of_N code_bytes = Some data <-> code_bytes = map Byte.to_N data.
Proof.
  split.
  - intros H%mapM_Some_1. induction H as [|n b ns bs Hn _ IH]; [done|].
    cbn. by rewrite (Byte.to_of_N n Hn), IH.
  - intros ->. apply bytes_to_N.
Qed.

Lemma write_binary_file_ok (sys : os) (con : console) (out : str)
    (code_bytes : list N) (data : list byte) (w : world) :
  mapM Byte.of_N code_bytes = Some data ->
  os_open_wb sys out = None ->
  os_write sys out data = None ->
  con (success_message (length code_bytes) out) = None ->
  write_binary_file sys con out code_bytes w =
  (Val (VBool true),
   World (trace w ++ [OpenWb out; WriteBytes out data; Close out;
                      Print (success_message (length code_bytes) out)])
         (<[out := data]> (files w))).
Proof.
  intros Hdata Hopen Hwrite Hprint. unfold_script. rewrite Hopen. simpl.
  rewrite Hdata. simpl. rewrite Hwrite. simpl.
  change (line_of (success_pieces (length code_bytes) out))
    with (success_message (length code_bytes) out).
  rewrite Hprint. simpl.
  rewrite lookup_insert_eq, insert_insert_eq. simpl.
  by rewrite <- !app_assoc.
Qed.

(** C7, as amended: for every output path and every ByteSequence (the
    integers of a list of bytes), when the file can be opened and written
    and the success message can be printed, the Binary Writer opens the
    path for binary writing, which creates or truncates it, writes every
    byte in order, closes the file, prints the success message with the
    number of bytes, and returns [True]; the file then holds exactly the
    bytes of the sequence. *)
Theorem C7_binary_writer (sys : os) (con : console) (out : str)
    (data : list byte) (w : world) :
  os_open_wb sys out = None ->
  os_write sys out data = None ->
  con (success_message (length data) out) = None ->
  let code_bytes := map Byte.to_N data in
  write_binary_file sys con out code_bytes w =
  (Val (VBool true),
   World (trace w ++ [OpenWb out; WriteBytes out data; Close out;
                      Print (success_message (length data) out)])
         (<[out := data]> (files w))) /\
  length code_bytes = length data.
Proof.
  intros Hopen Hwrite Hprint code_bytes. subst code_bytes.
  rewrite (write_binary_file_ok sys con out _ data w (bytes_to_N data) Hopen
             Hwrite); rewrite length_map; done.
Qed.

Lemma C7_binary_writer_witness :
  write_binary_file (printing []) utf8_terminal (py "out.bin") [169; 0]
    empty_world =
  (Val (VBool true),
   World [OpenWb (py "out.bin"); WriteBytes (py "out.bin") [xa9; x00];
          Close (py "out.bin"); Print (success_message 2 (py "out.bin"))]
         (<[py "out.bin" := [xa9; x00]]> ∅)).
Proof.
  exact (proj1 (C7_binary_writer (printing []) utf8_terminal (py "out.bin")
                  [xa9; x00] empty_world eq_refl eq_refl eq_refl)).
Defined.

(** C7 as stated fails: on success the Binary Writer returns [True], not the
    number of bytes written. *)
Lemma C7_returns_count_counterexample :
  fst (write_binary_file (printing []) utf8_terminal (py "out.bin") [169; 0]
         empty_world)
  = Val (VBool true) /\
  fst (write_binary_file (printing []) utf8_terminal (py "out.bin") [169; 0]
         empty_world)
  <> Val (VInt 2).
Proof. split; [reflexivity | discriminate]. Qed.

(** ** Case of hex digits *)

Lemma hex_swapcase_cases (c : N) :
  hex_swapcase c = c \/
  (c, hex_swapcase c) ∈
    [(65, 97); (66, 98); (67, 99); (68, 100); (69, 101); (70, 102);
     (97, 65); (98, 66); (99, 67); (100, 68); (101, 69); (102, 70)].
Proof.
  unfold hex_swapcase.
  destruct ((65 <=? c) && (c <=? 70)) eqn:Hupper.
  { apply andb_true_iff in Hupper as [H1%N.leb_le H2%N.leb_le].
    right.
    assert (Hc : c = 65 \/ c = 66 \/ c = 67 \/ c = 68 \/ c = 69 \/ c = 70)
      by lia.
    destruct Hc as [->|[->|[->|[->|[->| ->]]]]]; cbn; set_solver. }
  destruct ((97 <=? c) && (c <=? 102)) eqn:Hlower; [|by left].
  apply andb_true_iff in Hlower as [H1%N.leb_le H2%N.leb_le].
  right.
  assert (Hc : c = 97 \/ c = 98 \/ c = 99 \/ c = 100 \/ c = 101 \/ c = 102)
    by lia.
  destruct Hc as [->|[->|[->|[->|[->| ->]]]]]; cbn; set_solver.
Qed.

(** No test of the script tells a hex digit from its other case. *)
Lemma case_variant_same (f : N -> bool) (c d : N) :
  Forall (fun p => f (fst p) = f (snd p))
    [(65, 97); (66, 98); (67, 99); (68, 100); (69, 101); (70, 102);
     (97, 65); (98, 66); (99, 67); (100, 68); (101, 69); (102, 70)] ->
  case_variant c d -> f c = f d.
Proof.
  intros Hf [->| ->]; [done|].
  destruct (hex_swapcase_cases c) as [->|Hin]; [done|].
  rewrite Forall_forall in Hf. exact (Hf _ Hin).
Qed.

Lemma case_variant_value (c d : N) :
  case_variant c d -> hex_value c = hex_value d.
Proof.
  intros [->| ->]; [done|].
  destruct (hex_swapcase_cases c) as [->|Hin]; [done|].
  repeat (apply elem_of_cons in Hin as [[= -> ->]|Hin]; [done|]).
  by apply elem_of_nil in Hin.
Qed.

Lemma case_variant_newline (c d : N) :
  case_variant c d -> (c =? NL) = (d =? NL).
Proof. apply (case_variant_same (fun c => c =? NL)). by repeat constructor. Qed.

Lemma case_variant_space (c d : N) :
  case_variant c d -> is_space c = is_space d.
Proof. apply case_variant_same. by repeat constructor. Qed.

Lemma hex_pattern_respects_case : respects case_variant hex_pattern.
Proof.
  cbn. repeat split; intros c d; apply case_variant_same; by repeat constructor.
Qed.

(** C8: hex digits are read without regard to case. When a text differs
    from another only in the case of hex-digit letters, the same lines match
    the pattern, [findall] returns as many byte groups, which again differ
    only in the case of hex digits, and the tokens parse to the same
    integers: the two byte sequences are equal. *)
Theorem C8_case_insensitive (text text' : str) :
  Forall2 case_variant text text' ->
  Forall2 (cursor_rel case_variant) (matching_lines text) (matching_lines text')
  /\
  Forall2 (Forall2 case_variant)
    (findall hex_pattern text) (findall hex_pattern text') /\
  collect_bytes [] (findall hex_pattern text) =
  collect_bytes [] (findall hex_pattern text').
Proof.
  intros Htext.
  assert (Hfind : Forall2 (Forall2 case_variant)
                    (findall hex_pattern text) (findall hex_pattern text')).
  { apply findall_from_rel;
      [apply case_variant_newline | apply hex_pattern_respects_case
      | done | constructor]. }
  split; [|split; [done|]].
  - unfold matching_lines. apply filter_rel.
    + intros cur cur' Hcur. unfold matches_here.
      by destruct (match_at_rel case_variant case_variant_newline hex_pattern
                     cur cur' hex_pattern_respects_case Hcur).
    + apply filter_rel.
      * apply at_bol_rel, case_variant_newline.
      * apply positions_rel; [done | constructor].
  - by apply (collect_bytes_rel case_variant case_variant_space
                case_variant_value).
Qed.

Lemma C8_case_insensitive_witness :
  collect_bytes [] (findall hex_pattern (py "800: a9 0d Ff")) =
  collect_bytes [] (findall hex_pattern (py "800: A9 0D fF")).
Proof.
  apply (C8_case_insensitive (py "800: a9 0d Ff") (py "800: A9 0D fF")).
  repeat first [ constructor; [first [by left | by right]|] | constructor ].
Defined.

(** ** The Process Invoker *)

(** C9, as amended: when starting the assembler raises [FileNotFoundError]
    (the binary cannot be located), the script prints the fixed hint to
    build the tool first and returns [False], so that the program exits
    with status 1 without an exception going on. *)
Theorem C9_executable_not_found (sys : os) (con : console) (prog src out : str)
    (e : error) (w : world) :
  os_run sys (test_asm_argv src) = inl e ->
  issubclass (err_class e) FileNotFoundError = true ->
  let w' := World (trace w ++ [RunProcess (test_asm_argv src); Print hint])
                  (files w) in
  assemble_and_save sys con src out w = (Val (VBool false), w') /\
  script sys con prog [src; out] w = (1%Z, w').
Proof.
  intros Hrun Hcls w'.
  assert (H : assemble_and_save sys con src out w = (Val (VBool false), w')).
  { unfold assemble_and_save, subprocess_run. fold (test_asm_argv src).
    rewrite Hrun. simpl. rewrite Hcls. unfold_script. simpl.
    subst w'. by rewrite <- app_assoc. }
  split; [done|]. by rewrite script_two_args, H.
Qed.

Lemma C9_executable_not_found_witness :
  let sys := failing (Err FileNotFoundError (py "No such file or directory")) in
  assemble_and_save sys utf8_terminal (py "a.src") (py "a.bin") empty_world =
  (Val (VBool false),
   World [RunProcess (test_asm_argv (py "a.src")); Print hint] ∅).
Proof.
  intros sys.
  exact (proj1 (C9_executable_not_found sys utf8_terminal [] (py "a.src")
                  (py "a.bin") _ empty_world eq_refl eq_refl)).
Defined.

(** C9 as stated fails: a binary that is there but cannot be started makes
    [subprocess.run] raise [PermissionError]; the script does not catch it,
    prints no hint and ends with the uncaught exception. *)
Lemma C9_cannot_start_counterexample :
  let denied := Err PermissionError (py "Permission denied") in
  assemble_and_save (failing denied) utf8_terminal (py "a.src") (py "a.bin")
    empty_world =
  (Exc (Error denied), World [RunProcess (test_asm_argv (py "a.src"))] ∅) /\
  script (failing denied) utf8_terminal (py "assemble_helper.py")
    [py "a.src"; py "a.bin"] empty_world =
  (1%Z, World [RunProcess (test_asm_argv (py "a.src"));
               Traceback (Error denied)] ∅).
Proof. split; reflexivity. Qed.

(** ** Standard error is not read *)

Lemma write_binary_file_ext (sys1 sys2 : os) (con : console) (out : str)
    (code_bytes : list N) (w : world) :
  os_open_wb sys1 out = os_open_wb sys2 out ->
  (forall data, os_write sys1 out data = os_write sys2 out data) ->
  write_binary_file sys1 con out code_bytes w =
  write_binary_file sys2 con out code_bytes w.
Proof.
  intros Hopen Hwrite. unfold_script. rewrite Hopen.
  destruct (os_open_wb sys2 out); [done|]. simpl.
  destruct (mapM Byte.of_N code_bytes) as [data|]; simpl; [|done].
  by rewrite Hwrite.
Qed.

Lemma check_assembly_ext (sys1 sys2 : os) (con : console) (r1 r2 : completed)
    (out : str) (w : world) :
  stdout r1 = stdout r2 ->
  os_open_wb sys1 out = os_open_wb sys2 out ->
  (forall data, os_write sys1 out data = os_write sys2 out data) ->
  check_assembly sys1 con r1 out w = check_assembly sys2 con r2 out w.
Proof.
  intros Hout Hopen Hwrite. rewrite !check_assembly_classify, Hout.
  destruct (classify (stdout r2)); [done|done|].
  unfold parse_hex_dump.
  destruct (findall hex_pattern (stdout r2)) as [|m matches]; [done|].
  unfold lift, mbind, M_bind.
  destruct (collect_bytes [] (m :: matches)); [|done].
  by apply write_binary_file_ext.
Qed.

(** C10: two runs in which the assembler gives the same standard output (or
    fails to start in the same way) and the file system answers alike behave
    alike, whatever the standard error text and the return code of the
    assembler are: the same result of [assemble_and_save], the same exit
    status, the same events and the same files. *)
Theorem C10_stderr_ignored (sys1 sys2 : os) (con : console) (prog : str)
    (args : list str) (w : world) :
  (forall argv, stdout_of (os_run sys1 argv) = stdout_of (os_run sys2 argv)) ->
  (forall path, os_open_wb sys1 path = os_open_wb sys2 path) ->
  (forall path data, os_write sys1 path data = os_write sys2 path data) ->
  (forall src out,
     assemble_and_save sys1 con src out w =
     assemble_and_save sys2 con src out w) /\
  script sys1 con prog args w = script sys2 con prog args w.
Proof.
  intros Hrun Hopen Hwrite.
  assert (H : forall src out w,
             assemble_and_save sys1 con src out w =
             assemble_and_save sys2 con src out w).
  { intros src out w0. unfold assemble_and_save, subprocess_run.
    specialize (Hrun [py "./build/test_asm"; src]).
    destruct (os_run sys1 [py "./build/test_asm"; src]) as [e1|r1];
      destruct (os_run sys2 [py "./build/test_asm"; src]) as [e2|r2];
      simpl in Hrun; try discriminate Hrun.
    - by injection Hrun as ->.
    - injection Hrun as Hout. by apply check_assembly_ext. }
  split; [by intros; apply H|].
  unfold script, main.
  destruct (negb (length (prog :: args) =? 3)%nat); [done|].
  unfold mbind, M_bind.
  destruct (item (prog :: args) 1 w) as [[src|e] w1]; [|done].
  destruct (item (prog :: args) 2 w1) as [[out|e] w2]; [|done].
  by rewrite H.
Qed.

Lemma C10_stderr_ignored_witness :
  let quiet := printing sample_dump in
  let noisy :=
    OS (fun _ => inr (Completed sample_dump (py "warning: FAILED") 3%Z))
       (fun _ => None) (fun _ _ => None) in
  script quiet utf8_terminal (py "assemble_helper.py")
    [py "a.src"; py "a.bin"] empty_world =
  script noisy utf8_terminal (py "assemble_helper.py")
    [py "a.src"; py "a.bin"] empty_world.
Proof.
  intros quiet noisy.
  refine (proj2 (C10_stderr_ignored quiet noisy utf8_terminal _ _ empty_world
                   _ _ _));
    reflexivity.
Defined.

(** ** Further properties of the Binary Writer *)



(** X2: when the file opens but writing raises an [OSError], in [f.write]
    or in the flush at the end of the [with] block, after the first
    [reached] bytes got through, the file is closed before the handler
    runs, the error is printed and the writer returns [False]; the file
    holds those first bytes and nothing of what it held before. *)
Theorem X2_write_failure (sys : os) (con : console) (out : str)
    (code_bytes : list N) (data : list byte) (e : error) (reached : nat)
    (w : world) :
  os_open_wb sys out = None ->
  mapM Byte.of_N code_bytes = Some data ->
  os_write sys out data = Some (e, reached) ->
  issubclass (err_class e) OSError = true ->
  write_binary_file sys con out code_bytes w =
  (Val (VBool false),
   World (trace w ++ [OpenWb out; WriteBytes out data; Close out;
                      Print (py "Error writing output file: " ++ err_text e)])
         (<[out := take reached data]> (files w))).
Proof.
  intros Hopen Hdata Hwrite Hcls. unfold_script. rewrite Hopen. simpl.
  rewrite Hdata. simpl. rewrite Hwrite. simpl. rewrite Hcls. simpl.
  rewrite lookup_insert_eq, insert_insert_eq. simpl.
  by rewrite <- !app_assoc.
Qed.

Lemma X2_write_failure_witness :
  let e := Err OSError (py "No space left on device") in
  write_binary_file (disk_full [] e 1) utf8_terminal (py "a.bin") [169; 0]
    (World [] (<[py "a.bin" := [x01; x02; x03]]> ∅)) =
  (Val (VBool false),
   World [OpenWb (py "a.bin"); WriteBytes (py "a.bin") [xa9; x00];
          Close (py "a.bin");
          Print (py "Error writing output file: No space left on device")]
         (<[py "a.bin" := [xa9]]> (<[py "a.bin" := [x01; x02; x03]]> ∅))).
Proof.
  intros e.
  exact (X2_write_failure (disk_full [] e 1) utf8_terminal (py "a.bin")
           [169; 0] [xa9; x00] e 1
           (World [] (<[py "a.bin" := [x01; x02; x03]]> ∅))
           eq_refl eq_refl eq_refl eq_refl).
Defined.

(** X3: when some integer of the sequence is above 255, [bytes] raises
    [ValueError] after the file has been opened; the file is closed and left
    empty, nothing is written or printed, and the exception goes on, since
    the handler is for [IOError] only. *)
Theorem X3_value_error_escapes (sys : os) (con : console) (out : str)
    (code_bytes : list N) (w : world) :
  os_open_wb sys out = None ->
  Exists (fun n => 255 < n) code_bytes ->
  write_binary_file sys con out code_bytes w =
  (Exc (Error (Err ValueError (py "bytes must be in range(0, 256)"))),
   World (trace w ++ [OpenWb out; Close out]) (<[out := []]> (files w))).
Proof.
  intros Hopen Hbig. unfold_script. rewrite Hopen. simpl.
  assert (Hnone : mapM Byte.of_N code_bytes = None).
  { apply mapM_None. eapply Exists_impl; [exact Hbig|].
    intros n Hn. by apply Byte.of_N_None_iff. }
  rewrite Hnone. simpl. by rewrite <- app_assoc.
Qed.

Lemma X3_value_error_escapes_witness :
  write_binary_file (printing []) utf8_terminal (py "a.bin") [169; 2050]
    empty_world =
  (Exc (Error (Err ValueError (py "bytes must be in range(0, 256)"))),
   World [OpenWb (py "a.bin"); Close (py "a.bin")] (<[py "a.bin" := []]> ∅)).
Proof.
  apply (X3_value_error_escapes (printing []) utf8_terminal (py "a.bin")
           [169; 2050] empty_world eq_refl).
  apply Exists_cons_tl, Exists_cons_hd. reflexivity.
Defined.

(** ** What a run touches *)

Ltac solve_bounded :=
  unfold bounded_effects; simpl; split;
  [ eexists; split; [rewrite <- ?app_assoc; reflexivity | reflexivity]
  | first [ left; reflexivity
          | right; eexists; rewrite ?insert_insert_eq; reflexivity ] ].

Lemma write_binary_file_effects (sys : os) (con : console) (out : str)
    (code_bytes : list N) (w : world) :
  bounded_effects out w (snd (write_binary_file sys con out code_bytes w)).
Proof.
  unfold_script.
  destruct (os_open_wb sys out) as [e|]; simpl.
  { destruct (issubclass (err_class e) OSError); solve_bounded. }
  destruct (mapM Byte.of_N code_bytes) as [data|]; simpl; [|solve_bounded].
  destruct (os_write sys out data) as [[e reached]|]; simpl.
  { destruct (issubclass (err_class e) OSError); solve_bounded. }
  destruct (con (line_of (success_pieces (length code_bytes) out))) as [e|];
    simpl; [|solve_bounded].
  destruct (issubclass (err_class e) OSError); solve_bounded.
Qed.

Lemma assemble_and_save_effects (sys : os) (con : console) (src out : str)
    (w : world) :
  bounded_effects out (log (RunProcess (test_asm_argv src)) w)
    (snd (assemble_and_save sys con src out w)).
Proof.
  unfold assemble_and_save, subprocess_run. fold (test_asm_argv src).
  destruct (os_run sys (test_asm_argv src)) as [e|result].
  { destruct (isinstance (Error e) FileNotFoundError);
      unfold_script; solve_bounded. }
  rewrite check_assembly_classify.
  destruct (classify (stdout result)); [solve_bounded|solve_bounded|].
  unfold parse_hex_dump.
  destruct (findall hex_pattern (stdout result)) as [|m matches].
  { unfold_script. solve_bounded. }
  unfold lift, mbind, M_bind.
  destruct (collect_bytes [] (m :: matches)); simpl.
  - apply write_binary_file_effects.
  - solve_bounded.
Qed.

(** X4: a run changes no file but the output file: whatever the assembler
    prints and whatever the operating system does, every other path holds
    after [assemble_and_save] what it held before. *)
Theorem X4_other_files_untouched (sys : os) (con : console) (src out path : str)
    (w : world) :
  path <> out ->
  files (snd (assemble_and_save sys con src out w)) !! path = files w !! path.
Proof.
  intros Hne.
  destruct (assemble_and_save_effects sys con src out w) as [_ [->|[d ->]]];
    simpl; [done|]. by rewrite lookup_insert_ne.
Qed.

Lemma X4_other_files_untouched_witness :
  files (snd (assemble_and_save (printing sample_dump) utf8_terminal
                (py "a.src") (py "a.bin")
                (World [] (<[py "b.bin" := [x01]]> ∅)))) !! py "b.bin"
  = Some [x01].
Proof.
  rewrite (X4_other_files_untouched (printing sample_dump) utf8_terminal
             (py "a.src") (py "a.bin") (py "b.bin"));
    [reflexivity | discriminate].
Defined.

(** X5: every call of [assemble_and_save] starts exactly one child process,
    [./build/test_asm] with the source file as its only argument, before
    anything else; there is no retry on any path. *)
Theorem X5_one_child_process (sys : os) (con : console) (src out : str)
    (w : world) :
  exists evs,
    trace (snd (assemble_and_save sys con src out w)) =
    trace w ++ RunProcess [py "./build/test_asm"; src] :: evs /\
    spawns evs = [].
Proof.
  destruct (assemble_and_save_effects sys con src out w)
    as [(evs & Htr & Hsp) _].
  exists evs. simpl in Htr. by rewrite Htr, <- app_assoc.
Qed.

(** ** Every byte group holds a byte *)

Lemma run_Cat (r1 r2 : regex) (k : cont) (cur : cursor) (g : option str) :
  run (Cat r1 r2) k cur g = run r1 (run r2 k) cur g.
Proof. reflexivity. Qed.

Lemma run_Grp (r : regex) (k : cont) (cur : cursor) (g : option str) :
  run (Grp r) k cur g =
  run r (fun cur' _ => k cur' (Some (consumed cur cur'))) cur g.
Proof. reflexivity. Qed.

Lemma run_Class_inv (p : N -> bool) (k : cont) (cur : cursor) (g : option str)
    (res : found) :
  run (Class p) k cur g = Some res ->
  exists c rest,
    after cur = c :: rest /\ p c = true /\ k (Cursor (Some c) rest) g = Some res.
Proof.
  cbn [run]. destruct (after cur) as [|c rest]; [done|].
  destruct (p c) eqn:Hp; [|done]. intros Hk. by exists c, rest.
Qed.

Lemma run_passes (r : regex) (k : cont) (cur : cursor) (g : option str)
    (res : found) :
  run r k cur g = Some res ->
  exists stop g' mid, k stop g' = Some res /\ after cur = mid ++ after stop.
Proof.
  intros H. apply (run_consumes _ r (within_True r)) in H
    as (stop & g' & mid & Hk & Hmid & _).
  by exists stop, g', mid.
Qed.

(** Group 1 of a match of the script's pattern begins with a hex digit. *)
Lemma match_at_hex_pattern_group (cur : cursor) (m : found) :
  match_at hex_pattern cur = Some m ->
  exists c rest, snd m = Some (c :: rest) /\ is_hex c = true.
Proof.
  unfold match_at, hex_pattern, Plus, Twice. intros H.
  rewrite run_Cat in H. apply run_passes in H as (s1 & g1 & m1 & H & _).
  rewrite run_Cat in H. apply run_passes in H as (s2 & g2 & m2 & H & _).
  rewrite run_Cat in H. apply run_passes in H as (s3 & g3 & m3 & H & _).
  rewrite run_Cat in H. apply run_passes in H as (s4 & g4 & m4 & H & _).
  rewrite run_Grp, !run_Cat in H.
  apply run_Class_inv in H as (c & rest & Hafter & Hc & H).
  apply run_passes in H as (s5 & g5 & m5 & H & Hm5).
  apply run_passes in H as (s6 & g6 & m6 & H & Hm6).
  apply run_passes in H as (s7 & g7 & m7 & [= <-] & Hm7).
  simpl in *. exists c, (m5 ++ m6 ++ m7). split; [|done].
  f_equal. apply consumed_app. rewrite Hafter, Hm5, Hm6, Hm7. simpl.
  by rewrite <- !app_assoc.
Qed.

Lemma findall_from_first_hex (text : str) (skip : nat) (prev : option N) :
  Forall (fun m => exists c rest, m = c :: rest /\ is_hex c = true)
    (findall_from hex_pattern skip prev text).
Proof.
  revert skip prev. induction text as [|c rest IH]; intros skip prev;
    destruct skip; cbn [findall_from]; try done.
  - destruct (match_at hex_pattern (Cursor prev [])) as [m|] eqn:Hm; [|done].
    constructor; [|done].
    apply match_at_hex_pattern_group in Hm as (c & rest & Hg & Hc).
    exists c, rest. unfold group1. by rewrite Hg.
  - destruct (match_at hex_pattern (Cursor prev (c :: rest))) as [m|] eqn:Hm;
      [|done].
    constructor; [|done].
    apply match_at_hex_pattern_group in Hm as (c' & rest' & Hg & Hc).
    exists c', rest'. unfold group1. by rewrite Hg.
Qed.

(** ** Tokens *)

Lemma split_from_spaces (word ws : str) :
  Forall (fun c => is_space c = true) ws ->
  split_from word ws = match word with [] => [] | _ => [rev word] end.
Proof.
  intros Hws. revert word. induction Hws as [|c ws Hc Hws IH]; intros word;
    cbn [split_from]; [done|].
  rewrite Hc. destruct word; [apply IH | by rewrite IH].
Qed.

Lemma split_from_app_spaces (s ws word : str) :
  Forall (fun c => is_space c = true) ws ->
  split_from word (s ++ ws) = split_from word s.
Proof.
  intros Hws. revert word. induction s as [|c s IH]; intros word.
  - simpl. by apply split_from_spaces.
  - cbn [app split_from]. destruct (is_space c); [|apply IH].
    destruct word; by rewrite IH.
Qed.

Lemma lstrip_spec (s : str) :
  exists ws, s = ws ++ lstrip s /\ Forall (fun c => is_space c = true) ws.
Proof.
  induction s as [|c s (ws & Hs & Hws)]; [by exists []|].
  cbn [lstrip]. destruct (is_space c) eqn:Hc; [|by exists []].
  exists (c :: ws). split; [by rewrite Hs at 1 | by constructor].
Qed.

Lemma split_lstrip (s : str) : split (lstrip s) = split s.
Proof.
  unfold split. induction s as [|c s IH]; [done|].
  cbn [lstrip]. destruct (is_space c) eqn:Hc.
  - rewrite IH. cbn [split_from]. by rewrite Hc.
  - done.
Qed.

Lemma split_rstrip (s : str) : split (rstrip s) = split s.
Proof.
  unfold rstrip, split.
  destruct (lstrip_spec (rev s)) as (ws & Hs & Hws).
  apply (f_equal (@rev N)) in Hs. rewrite rev_involutive, rev_app_distr in Hs.
  rewrite Hs at 2. symmetry. apply split_from_app_spaces. by apply Forall_rev.
Qed.

Lemma split_strip (s : str) : split (strip s) = split s.
Proof. unfold strip. by rewrite split_rstrip, split_lstrip. Qed.

(** X6: [match.strip().split()] is [match.split()]: stripping before the
    split changes no token. *)
Theorem X6_strip_before_split (s : str) : split (strip s) = split s.
Proof. apply split_strip. Qed.

Lemma mapM_cons_Some {A B} (f : A -> option B) (x : A) (l : list A) :
  mapM f (x :: l) =
  match f x with
  | Some y => match mapM f l with Some k => Some (y :: k) | None => None end
  | None => None
  end.
Proof.
  change (mapM f (x :: l)) with (y ← f x; k ← mapM f l; mret (y :: k)).
  destruct (f x); [|done]. simpl. destruct (mapM f l); reflexivity.
Qed.

Lemma mapM_app_Some {A B} (f : A -> option B) (l1 l2 : list A) :
  mapM f (l1 ++ l2) =
  match mapM f l1 with
  | Some k1 => match mapM f l2 with Some k2 => Some (k1 ++ k2) | None => None end
  | None => None
  end.
Proof.
  induction l1 as [|x l1 IH].
  { cbn [app]. change (mapM f []) with (@Some (list B) []).
    destruct (mapM f l2); reflexivity. }
  rewrite <- app_comm_cons, !mapM_cons_Some, IH.
  destruct (f x); [|done]. destruct (mapM f l1); [|done].
  by destruct (mapM f l2).
Qed.

Lemma append_tokens_mapM (toks : list str) (acc : list N) :
  append_tokens acc toks =
  match mapM int16 toks with
  | Some vals => Val (acc ++ vals)
  | None =>
      Exc (Error (Err ValueError (py "invalid literal for int() with base 16")))
  end.
Proof.
  revert acc. induction toks as [|t toks IH]; intros acc.
  - cbn. by rewrite app_nil_r.
  - cbn [append_tokens]. rewrite mapM_cons_Some.
    destruct (int16 t) as [n|]; [|done]. rewrite IH.
    destruct (mapM int16 toks); [|done]. by rewrite <- app_assoc.
Qed.

Lemma collect_bytes_mapM (matches : list str) (acc : list N) :
  collect_bytes acc matches =
  match mapM int16 (tokens matches) with
  | Some vals => Val (acc ++ vals)
  | None =>
      Exc (Error (Err ValueError (py "invalid literal for int() with base 16")))
  end.
Proof.
  unfold tokens. revert acc. induction matches as [|m ms IH]; intros acc.
  - cbn. by rewrite app_nil_r.
  - cbn [collect_bytes map concat]. rewrite append_tokens_mapM, mapM_app_Some.
    destruct (mapM int16 (split (strip m))) as [v1|]; [|done].
    rewrite IH.
    destruct (mapM int16 (concat (map (fun m => split (strip m)) ms)));
      [|done].
    by rewrite <- app_assoc.
Qed.

(** X7: "Collect all bytes" reads the tokens of all byte groups in one pass:
    the sequence is the integers of the tokens of the first group, left to
    right, then those of the second, and so on, one integer for each token;
    if [int] rejects a token the whole step raises [ValueError]. *)
Theorem X7_collect_in_order (matches : list str) :
  collect_bytes [] matches =
  match mapM int16 (tokens matches) with
  | Some vals => Val vals
  | None =>
      Exc (Error (Err ValueError (py "invalid literal for int() with base 16")))
  end.
Proof. apply collect_bytes_mapM. Qed.

Lemma hex_not_space (c : N) : is_hex c = true -> is_space c = false.
Proof.
  intros Hhex. apply not_true_iff_false. intros Hspace.
  unfold is_hex, is_space in *.
  repeat rewrite ?orb_true_iff, ?andb_true_iff, ?N.leb_le, ?N.eqb_eq in *.
  lia.
Qed.

Lemma split_from_nonempty (s word : str) :
  word <> [] -> split_from word s <> [].
Proof.
  revert word. induction s as [|c s IH]; intros word Hword;
    cbn [split_from].
  - by destruct word.
  - destruct (is_space c); [by destruct word|]. by apply IH.
Qed.

Lemma tokens_length (matches : list str) :
  Forall (fun m => exists c rest, m = c :: rest /\ is_hex c = true) matches ->
  (length matches <= length (tokens matches))%nat.
Proof.
  unfold tokens. induction 1 as [|m ms (c & rest & -> & Hc) Hms IH]; [done|].
  cbn [map concat length]. rewrite length_app, split_strip.
  assert (Hne : split (c :: rest) <> []).
  { unfold split. cbn [split_from]. rewrite (hex_not_space c Hc).
    by apply split_from_nonempty. }
  destruct (split (c :: rest)); [done|]. simpl. lia.
Qed.

Lemma collect_bytes_findall_length (text : str) :
  exists code_bytes,
    collect_bytes [] (findall hex_pattern text) = Val code_bytes /\
    length code_bytes = length (tokens (findall hex_pattern text)) /\
    (length (findall hex_pattern text) <= length code_bytes)%nat.
Proof.
  destruct (collect_bytes_findall text) as [code_bytes Hcol].
  exists code_bytes. split; [done|].
  rewrite collect_bytes_mapM in Hcol.
  destruct (mapM int16 (tokens (findall hex_pattern text))) as [vals|] eqn:Hm;
    [|done].
  injection Hcol as <-. apply length_mapM in Hm. simpl. split; [done|].
  rewrite <- Hm. apply tokens_length, findall_from_first_hex.
Qed.

(** X8: [int(_, 16)] never raises on what the pattern lets through: for
    every text "Collect all bytes" returns a sequence, with one integer for
    each token and at least one integer for each byte group [findall]
    returned. *)
Theorem X8_int_never_raises (text : str) :
  exists code_bytes,
    collect_bytes [] (findall hex_pattern text) = Val code_bytes /\
    length code_bytes = length (tokens (findall hex_pattern text)) /\
    (length (findall hex_pattern text) <= length code_bytes)%nat.
Proof. apply collect_bytes_findall_length. Qed.

(** ** What a result tells *)

Lemma write_binary_file_true (sys : os) (con : console) (out : str)
    (code_bytes : list N) (w w' : world) :
  write_binary_file sys con out code_bytes w = (Val (VBool true), w') ->
  exists data,
    mapM Byte.of_N code_bytes = Some data /\
    os_open_wb sys out = None /\ os_write sys out data = None /\
    con (success_message (length code_bytes) out) = None /\
    w' = World (trace w ++ [OpenWb out; WriteBytes out data; Close out;
                            Print (success_message (length code_bytes) out)])
               (<[out := data]> (files w)).
Proof.
  intros H. pose proof (f_equal fst H) as Hfst.
  rewrite write_binary_file_result in Hfst. simpl in Hfst.
  unfold after_error in Hfst.
  destruct (os_open_wb sys out) as [e|] eqn:Hopen.
  { by destruct (issubclass (err_class e) OSError). }
  destruct (mapM Byte.of_N code_bytes) as [data|] eqn:Hdata; [|done].
  destruct (os_write sys out data) as [[e reached]|] eqn:Hwrite.
  { by destruct (issubclass (err_class e) OSError). }
  destruct (con (success_message (length code_bytes) out)) as [e|] eqn:Hprint.
  { by destruct (issubclass (err_class e) OSError). }
  exists data. repeat split; try done.
  rewrite (write_binary_file_ok sys con out code_bytes data w Hdata Hopen
             Hwrite Hprint) in H.
  by injection H as <-.
Qed.

(** X9: a [True] from [assemble_and_save] is never spurious. The assembler
    ran and printed a text with [SUCCEEDED] and without [FAILED], the
    extraction gave a sequence of at least one integer, all below 256, and
    the output file now holds exactly these bytes, in order. *)
Theorem X9_success_is_sound (sys : os) (con : console) (src out : str)
    (w w' : world) :
  assemble_and_save sys con src out w = (Val (VBool true), w') ->
  exists result data,
    os_run sys [py "./build/test_asm"; src] = inr result /\
    substring (py "SUCCEEDED") (stdout result) /\
    ~ substring (py "FAILED") (stdout result) /\
    collect_bytes [] (findall hex_pattern (stdout result))
    = Val (map Byte.to_N data) /\
    data <> [] /\
    files w' = <[out := data]> (files w).
Proof.
  unfold assemble_and_save, subprocess_run.
  destruct (os_run sys [py "./build/test_asm"; src]) as [e|result] eqn:Hrun.
  { destruct (isinstance (Error e) FileNotFoundError); simpl; done. }
  rewrite check_assembly_classify.
  destruct (classify (stdout result)) eqn:Hclass; [done|done|].
  apply classify_Proceed in Hclass as [Hfailed Hsucc].
  unfold parse_hex_dump.
  destruct (findall hex_pattern (stdout result)) as [|m ms] eqn:Hfind; [done|].
  unfold lift, mbind, M_bind.
  destruct (collect_bytes [] (m :: ms)) as [code_bytes|e] eqn:Hcol; [|done].
  intros (data & Hdata & _ & _ & _ & ->)%write_binary_file_true.
  apply bytes_in_range in Hdata as ->.
  exists result, data. repeat split; try done; [by rewrite Hfind|].
  intros ->.
  destruct (collect_bytes_findall_length (stdout result))
    as (cb & Hcb & _ & Hlen).
  rewrite Hfind, Hcol in Hcb. injection Hcb as <-.
  rewrite Hfind in Hlen. simpl in Hlen. lia.
Qed.

Lemma X9_success_is_sound_witness :
  exists result data,
    os_run (printing (py "SUCCEEDED" ++ [NL] ++ py "800: a9 00"))
      [py "./build/test_asm"; py "a.src"] = inr result /\
    substring (py "SUCCEEDED") (stdout result) /\
    ~ substring (py "FAILED") (stdout result) /\
    collect_bytes [] (findall hex_pattern (stdout result))
    = Val (map Byte.to_N data) /\
    data <> [] /\
    <[py "a.bin" := [xa9; x00]]> (∅ : gmap str (list byte))
    = <[py "a.bin" := data]> ∅.
Proof.
  refine (X9_success_is_sound
            (printing (py "SUCCEEDED" ++ [NL] ++ py "800: a9 00"))
            utf8_terminal (py "a.src") (py "a.bin") empty_world
            (World [RunProcess (test_asm_argv (py "a.src"));
                    OpenWb (py "a.bin");
                    WriteBytes (py "a.bin") [xa9; x00];
                    Close (py "a.bin");
                    Print (success_message 2 (py "a.bin"))]
                   (<[py "a.bin" := [xa9; x00]]> ∅)) _).
  vm_compute. reflexivity.
Defined.



(** ** Size of the integers *)

Lemma hex_value_bound (c d : N) : hex_value c = Some d -> d < 16.
Proof.
  unfold hex_value.
  destruct ((48 <=? c) && (c <=? 57)) eqn:H1.
  { apply andb_true_iff in H1 as [?%N.leb_le ?%N.leb_le]. intros [= <-]. lia. }
  destruct ((97 <=? c) && (c <=? 102)) eqn:H2.
  { apply andb_true_iff in H2 as [?%N.leb_le ?%N.leb_le]. intros [= <-]. lia. }
  destruct ((65 <=? c) && (c <=? 70)) eqn:H3; [|done].
  apply andb_true_iff in H3 as [?%N.leb_le ?%N.leb_le]. intros [= <-]. lia.
Qed.

Lemma int16_from_bound (s : str) (acc n : N) :
  int16_from acc s = Some n -> n < (acc + 1) * 16 ^ N.of_nat (length s).
Proof.
  revert acc. induction s as [|c s IH]; intros acc; cbn [int16_from length].
  - intros [= <-]. simpl. lia.
  - destruct (hex_value c) as [d|] eqn:Hd; [|done].
    apply hex_value_bound in Hd. intros Hn%IH.
    rewrite Nat2N.inj_succ, N.pow_succ_r'.
    eapply N.lt_le_trans; [exact Hn|].
    rewrite (N.mul_comm 16), N.mul_assoc.
    apply N.mul_le_mono_r. lia.
Qed.

Lemma int16_bound (token : str) (n : N) :
  int16 token = Some n -> n < 16 ^ N.of_nat (length token).
Proof.
  unfold int16. destruct token as [|c token]; [done|].
  intros Hn%int16_from_bound. lia.
Qed.

(** X11: an integer of the sequence is below 16 to the power of the number
    of digits of its token. So when every token has at most two digits,
    every integer is below 256 and [bytes] accepts the sequence. *)
Theorem X11_token_bounds (matches : list str) (code_bytes : list N) :
  collect_bytes [] matches = Val code_bytes ->
  Forall2 (fun token n => int16 token = Some n /\
                          n < 16 ^ N.of_nat (length token))
    (tokens matches) code_bytes /\
  (Forall (fun token => (length token <= 2)%nat) (tokens matches) ->
   Forall (fun n => n < 256) code_bytes /\
   is_Some (mapM Byte.of_N code_bytes)).
Proof.
  rewrite collect_bytes_mapM.
  destruct (mapM int16 (tokens matches)) as [vals|] eqn:Hvals; [|done].
  intros [= <-]. simpl. apply mapM_Some_1 in Hvals.
  assert (Hall : Forall2 (fun token n => int16 token = Some n /\
                            n < 16 ^ N.of_nat (length token))
                   (tokens matches) vals).
  { eapply Forall2_impl; [exact Hvals|]. intros t n Ht.
    split; [done | by apply int16_bound]. }
  split; [done|]. intros Hshort.
  assert (Hsmall : Forall (fun n => n < 256) vals).
  { clear Hvals. induction Hall as [|t n ts ns [_ Hn] _ IH]; [done|].
    apply Forall_cons in Hshort as [Ht Hts]. constructor; [|by apply IH].
    eapply N.lt_le_trans; [exact Hn|].
    change 256 with (16 ^ 2). simpl in Ht.
    apply N.pow_le_mono_r; [done|]. clear Hn. lia. }
  split; [done|]. apply mapM_is_Some. 
  eapply Forall_impl; [exact Hsmall|]. intros n Hn. simpl.
  destruct (Byte.of_N n) eqn:Hb; [done|].
  apply Byte.of_N_None_iff in Hb. simpl in Hn. lia.
Qed.

Lemma X11_token_bounds_witness :
  Forall (fun n => n < 256) [169; 0; 141] /\
  is_Some (mapM Byte.of_N [169; 0; 141]).
Proof.
  apply (X11_token_bounds [py "a9 00 "; py "8d"] [169; 0; 141] eq_refl).
  repeat constructor.
Defined.

(** ** A dump of one line is read back *)

Lemma star_class_greedy (p : N -> bool) (k : cont) (xs rest : str) :
  Forall (fun c => p c = true) xs -> stops p rest ->
  forall fuel prev g res,
    (length xs <= fuel)%nat ->
    k (Cursor (step_over prev xs) rest) g = Some res ->
    star_loop (run (Class p)) k fuel (Cursor prev (xs ++ rest)) g = Some res.
Proof.
  intros Hxs Hrest. induction Hxs as [|x xs Hx Hxs IH];
    intros fuel prev g res Hfuel Hk.
  - simpl in *. destruct fuel; [done|]. cbn [star_loop run after].
    destruct rest as [|c rest]; [done|]. simpl in Hrest. by rewrite Hrest.
  - destruct fuel as [|fuel]; [simpl in Hfuel; lia|].
    cbn [star_loop run after app]. rewrite Hx. cbn [after].
    destruct (Nat.ltb_spec (length (xs ++ rest)) (length (x :: xs ++ rest)))
      as [_|Hlen]; [|simpl in Hlen; lia].
    assert (Hfuel' : (length xs <= fuel)%nat) by (simpl in Hfuel; lia).
    pose proof (IH fuel (Some x) g res Hfuel' Hk) as E.
    cbn [run] in E. by rewrite E.
Qed.

Lemma run_Star_class (p : N -> bool) (k : cont) (xs rest : str)
    (prev : option N) (g : option str) (res : found) :
  Forall (fun c => p c = true) xs -> stops p rest ->
  k (Cursor (step_over prev xs) rest) g = Some res ->
  run (Star (Class p)) k (Cursor prev (xs ++ rest)) g = Some res.
Proof.
  intros Hxs Hrest Hk. cbn [run after].
  apply star_class_greedy; try done. rewrite length_app. lia.
Qed.

Lemma hex_pair_spec (b : byte) :
  exists h1 h2,
    hex_pair b = [h1; h2] /\ is_hex h1 = true /\ is_hex h2 = true /\
    int16 [h1; h2] = Some (Byte.to_N b).
Proof. destruct b; by eexists _, _. Qed.

Lemma hex_pairs_cons (b : byte) (data : list byte) :
  hex_pairs (b :: data) =
  hex_pair b ++ match data with [] => [] | _ => [32] end ++ hex_pairs data.
Proof. destruct data; cbn [hex_pairs app]; [by rewrite app_nil_r | done]. Qed.

Lemma hex_pairs_stops (data : list byte) : stops is_space (hex_pairs data).
Proof.
  destruct data as [|b data]; [done|]. rewrite hex_pairs_cons.
  destruct (hex_pair_spec b) as (h1 & h2 & -> & H1 & _).
  simpl. by apply hex_not_space.
Qed.

Lemma run_byte_pair (b : byte) (sep tail : str) (k : cont) (prev : option N)
    (g : option str) (res : found) :
  Forall (fun c => is_space c = true) sep -> stops is_space tail ->
  k (Cursor (step_over prev (hex_pair b ++ sep)) tail) g = Some res ->
  run byte_pair k (Cursor prev (hex_pair b ++ sep ++ tail)) g = Some res.
Proof.
  intros Hsep Htail Hk.
  destruct (hex_pair_spec b) as (h1 & h2 & Hb & H1 & H2 & _).
  rewrite Hb in *. unfold byte_pair, Twice. rewrite !run_Cat.
  cbn [run after app]. rewrite H1. cbn [after]. rewrite H2.
  apply run_Star_class; try done.
Qed.

Lemma run_byte_pair_nil (k : cont) (prev : option N) (g : option str) :
  run byte_pair k (Cursor prev []) g = None.
Proof. reflexivity. Qed.

Lemma star_byte_pairs (k : cont) (data : list byte) :
  forall fuel prev g res,
    (length (hex_pairs data) <= fuel)%nat ->
    k (Cursor (step_over prev (hex_pairs data)) []) g = Some res ->
    star_loop (run byte_pair) k fuel (Cursor prev (hex_pairs data)) g = Some res.
Proof.
  induction data as [|b data IH]; intros fuel prev g res Hfuel Hk.
  - cbn [hex_pairs] in *. destruct fuel; [exact Hk|]. cbn [star_loop].
    rewrite run_byte_pair_nil. exact Hk.
  - rewrite hex_pairs_cons in *.
    set (sep := match data with [] => [] | _ => [32] end) in *.
    assert (Hsep : Forall (fun c => is_space c = true) sep)
      by (subst sep; destruct data; by repeat constructor).
    destruct fuel as [|fuel].
    { destruct (hex_pair_spec b) as (h1 & h2 & Hb & _). rewrite Hb in Hfuel.
      simpl in Hfuel. lia. }
    cbn [star_loop].
    erewrite run_byte_pair; [done|done|apply hex_pairs_stops|].
    cbn [after].
    destruct (Nat.ltb_spec (length (hex_pairs data))
                (length (hex_pair b ++ sep ++ hex_pairs data))) as [_|Hlen].
    2:{ destruct (hex_pair_spec b) as (h1 & h2 & Hb & _). rewrite Hb in Hlen.
        simpl in Hlen. rewrite length_app in Hlen. lia. }
    apply IH.
    + destruct (hex_pair_spec b) as (h1 & h2 & Hb & _). rewrite Hb in Hfuel.
      simpl in Hfuel. rewrite length_app in Hfuel. lia.
    + unfold step_over in *. by rewrite app_assoc, foldl_app in Hk.
Qed.

Lemma run_Bol (k : cont) (cur : cursor) (g : option str) :
  run Bol k cur g = if at_bol cur then k cur g else None.
Proof. reflexivity. Qed.

Lemma run_Class_cons (p : N -> bool) (k : cont) (prev : option N) (c : N)
    (rest : str) (g : option str) :
  run (Class p) k (Cursor prev (c :: rest)) g =
  if p c then k (Cursor (Some c) rest) g else None.
Proof. reflexivity. Qed.

Lemma match_at_nil (prev : option N) :
  match_at hex_pattern (Cursor prev []) = None.
Proof.
  unfold match_at, hex_pattern, Plus. rewrite run_Cat, run_Bol.
  by destruct (at_bol _).
Qed.

Lemma match_at_first (prev : option N) (c : N) (rest : str) (m : found) :
  match_at hex_pattern (Cursor prev (c :: rest)) = Some m ->
  at_bol (Cursor prev []) = true /\ is_hex c = true.
Proof.
  unfold match_at, hex_pattern, Plus. rewrite run_Cat, run_Bol.
  change (at_bol (Cursor prev (c :: rest))) with (at_bol (Cursor prev [])).
  destruct (at_bol (Cursor prev [])); [|done].
  rewrite !run_Cat, run_Class_cons. by destruct (is_hex c).
Qed.

(** The pattern on a dump line that begins a line. *)
Lemma match_at_dump_line (prev : option N) (addr : str) (data : list byte) :
  at_bol (Cursor prev []) = true ->
  addr <> [] -> Forall (fun c => is_hex c = true) addr -> data <> [] ->
  exists last,
    match_at hex_pattern (Cursor prev (dump_line addr data)) =
    Some (Cursor last [], Some (hex_pairs data)).
Proof.
  intros Hbol Haddr Hhex Hdata.
  destruct addr as [|a addr]; [done|]. apply Forall_cons in Hhex as [Ha Hhex].
  destruct data as [|b data]; [done|].
  eexists. unfold match_at, hex_pattern, Plus, dump_line.
  fold byte_pair.
  rewrite run_Cat, run_Bol.
  change (at_bol (Cursor prev _)) with (at_bol (Cursor prev [])).
  rewrite Hbol, !run_Cat. cbn [app]. rewrite run_Class_cons, Ha.
  apply run_Star_class; [done | done |].
  rewrite run_Cat. cbn [app]. rewrite run_Class_cons.
  change (is_colon 58) with true. cbv iota.
  rewrite !run_Cat, run_Class_cons.
  change (is_space 32) with true. cbv iota.
  apply (run_Star_class is_space _ [] (hex_pairs (b :: data)));
    [done | apply hex_pairs_stops |].
  rewrite run_Grp, run_Cat, hex_pairs_cons.
  apply run_byte_pair;
    [destruct data; by repeat constructor | apply hex_pairs_stops |].
  cbn [run after]. apply star_byte_pairs; [done|].
  cbv beta. f_equal. f_equal. f_equal.
  apply consumed_app. cbn [after]. by rewrite app_nil_r.
Qed.

Lemma findall_from_quiet (pre rest : str) (prev : option N) :
  quiet prev pre ->
  findall_from hex_pattern 0 prev (pre ++ rest) =
  findall_from hex_pattern 0 (step_over prev pre) rest.
Proof.
  revert prev. induction pre as [|c pre IH]; intros prev; [done|].
  intros [Hc Hpre]. cbn [app]. rewrite findall_from_no_match; [by apply IH|].
  destruct (match_at hex_pattern (Cursor prev (c :: pre ++ rest))) as [m|]
    eqn:Hm; [|done].
  apply match_at_first in Hm as [Hbol Hhex]. rewrite (Hc Hbol) in Hhex. done.
Qed.

Lemma findall_dump_line (pre addr : str) (data : list byte) :
  quiet None pre -> ends_line pre ->
  addr <> [] -> Forall (fun c => is_hex c = true) addr -> data <> [] ->
  findall hex_pattern (pre ++ dump_line addr data) = [hex_pairs data].
Proof.
  intros Hquiet Hends Haddr Hhex Hdata. unfold findall.
  rewrite findall_from_quiet by done.
  destruct (match_at_dump_line (step_over None pre) addr data Hends Haddr Hhex
              Hdata) as [last Hm].
  rewrite (findall_from_match _ _ _ Hm). simpl fst. cbn [before after].
  unfold group1. simpl snd. simpl default. f_equal.
  cbn [findall_from]. by rewrite match_at_nil.
Qed.

Lemma split_from_hex_pairs (data : list byte) :
  split_from [] (hex_pairs data) = map hex_pair data.
Proof.
  induction data as [|b data IH]; [done|]. rewrite hex_pairs_cons.
  cbn [map]. destruct (hex_pair_spec b) as (h1 & h2 & -> & H1 & H2 & _).
  destruct data as [|b' data].
  - cbn [app split_from map hex_pairs].
    by rewrite (hex_not_space h1 H1), (hex_not_space h2 H2).
  - cbn [app split_from]. cbn [map] in *.
    rewrite (hex_not_space h1 H1), (hex_not_space h2 H2).
    change (is_space 32) with true. cbv iota. by rewrite IH.
Qed.

Lemma int16_hex_pairs (data : list byte) :
  mapM int16 (map hex_pair data) = Some (map Byte.to_N data).
Proof.
  induction data as [|b data IH]; [done|].
  cbn [map]. rewrite mapM_cons_Some, IH.
  destruct (hex_pair_spec b) as (h1 & h2 & -> & _ & _ & ->). done.
Qed.

Lemma collect_dump_line (pre addr : str) (data : list byte) :
  quiet None pre -> ends_line pre ->
  addr <> [] -> Forall (fun c => is_hex c = true) addr -> data <> [] ->
  collect_bytes [] (findall hex_pattern (pre ++ dump_line addr data)) =
  Val (map Byte.to_N data).
Proof.
  intros Hquiet Hends Haddr Hhex Hdata.
  rewrite findall_dump_line, collect_bytes_mapM by done.
  unfold tokens. cbn [map concat]. rewrite app_nil_r, split_strip.
  unfold split. by rewrite split_from_hex_pairs, int16_hex_pairs.
Qed.

(** X12: a dump of one line is read back. When no line before it begins
    with a hex digit, a line made of an address of hex digits, a colon, a
    blank and the two-digit values of some bytes separated by single blanks
    gives exactly one byte group, and "Collect all bytes" returns these
    bytes in order, whatever the address is. *)
Theorem X12_one_line_round_trip (pre addr : str) (data : list byte) :
  quiet None pre -> ends_line pre ->
  addr <> [] -> Forall (fun c => is_hex c = true) addr -> data <> [] ->
  findall hex_pattern (pre ++ dump_line addr data) = [hex_pairs data] /\
  collect_bytes [] (findall hex_pattern (pre ++ dump_line addr data)) =
  Val (map Byte.to_N data).
Proof.
  intros. split; [by apply findall_dump_line | by apply collect_dump_line].
Qed.

Lemma X12_one_line_round_trip_witness :
  collect_bytes []
    (findall hex_pattern
       ((py "SUCCEEDED" ++ [NL]) ++ dump_line (py "800") [xa9; x00; x8d]))
  = Val [169; 0; 141].
Proof.
  apply (X12_one_line_round_trip (py "SUCCEEDED" ++ [NL]) (py "800")
           [xa9; x00; x8d]).
  - vm_compute. repeat split; discriminate.
  - reflexivity.
  - discriminate.
  - repeat constructor.
  - discriminate.
Defined.

(** X13: the whole run on such output. When the assembler prints a text
    classified Proceed that ends in a one-line dump as in X12, the file can
    be opened and written, and the success message can be printed,
    [assemble_and_save] returns [True] and the output file holds exactly
    the dumped bytes. *)
Theorem X13_one_line_dump_saved (sys : os) (con : console)
    (src out pre addr err : str) (rc : Z) (data : list byte) (w : world) :
  os_run sys [py "./build/test_asm"; src]
  = inr (Completed (pre ++ dump_line addr data) err rc) ->
  classify (pre ++ dump_line addr data) = Proceed ->
  quiet None pre -> ends_line pre ->
  addr <> [] -> Forall (fun c => is_hex c = true) addr -> data <> [] ->
  os_open_wb sys out = None ->
  os_write sys out data = None ->
  con (success_message (length data) out) = None ->
  assemble_and_save sys con src out w =
  (Val (VBool true),
   World (trace w ++ [RunProcess [py "./build/test_asm"; src];
                      OpenWb out; WriteBytes out data; Close out;
                      Print (success_message (length data) out)])
         (<[out := data]> (files w))).
Proof.
  intros Hrun Hclass Hquiet Hends Haddr Hhex Hdata Hopen Hwrite Hprint.
  rewrite (assemble_and_save_ran _ _ _ _ _ _ Hrun), check_assembly_classify.
  cbn [stdout]. rewrite Hclass. unfold parse_hex_dump.
  rewrite findall_dump_line by done.
  pose proof (collect_dump_line pre addr data Hquiet Hends Haddr Hhex Hdata)
    as Hcol.
  rewrite findall_dump_line in Hcol by done.
  unfold lift, mbind, M_bind. rewrite Hcol.
  rewrite (write_binary_file_ok sys con out _ data _ (bytes_to_N data) Hopen
             Hwrite); rewrite length_map; [|done].
  unfold log. cbn [trace files]. by rewrite <- app_assoc.
Qed.

Lemma X13_one_line_dump_saved_witness :
  assemble_and_save
    (printing ((py "SUCCEEDED" ++ [NL]) ++ dump_line (py "800") [xa9; x00]))
    utf8_terminal (py "a.src") (py "a.bin") empty_world =
  (Val (VBool true),
   World [RunProcess [py "./build/test_asm"; py "a.src"];
          OpenWb (py "a.bin"); WriteBytes (py "a.bin") [xa9; x00];
          Close (py "a.bin"); Print (success_message 2 (py "a.bin"))]
         (<[py "a.bin" := [xa9; x00]]> ∅)).
Proof.
  apply (X13_one_line_dump_saved
           (printing ((py "SUCCEEDED" ++ [NL]) ++ dump_line (py "800") [xa9; x00]))
           utf8_terminal (py "a.src") (py "a.bin") (py "SUCCEEDED" ++ [NL])
           (py "800") [] 0%Z [xa9; x00] empty_world).
  - reflexivity.
  - reflexivity.
  - vm_compute. repeat split; discriminate.
  - reflexivity.
  - discriminate.
  - repeat constructor.
  - discriminate.
  - reflexivity.
  - reflexivity.
  - reflexivity.
Defined.

(** ** When the output file is opened *)

Ltac solve_opens :=
  unfold opens; simpl; rewrite ?omap_app; simpl;
  rewrite ?app_nil_r, <- ?app_assoc; simpl; rewrite ?app_nil_r; reflexivity.

Lemma write_binary_file_opens (sys : os) (con : console) (out : str)
    (code_bytes : list N) (w : world) :
  opens (trace (snd (write_binary_file sys con out code_bytes w))) =
  opens (trace w) ++ [out].
Proof.
  unfold_script.
  destruct (os_open_wb sys out) as [e|]; simpl.
  { destruct (issubclass (err_class e) OSError); solve_opens. }
  destruct (mapM Byte.of_N code_bytes) as [data|]; simpl; [|solve_opens].
  destruct (os_write sys out data) as [[e reached]|]; simpl.
  { destruct (issubclass (err_class e) OSError); solve_opens. }
  destruct (con (line_of (success_pieces (length code_bytes) out))) as [e|];
    simpl; [|solve_opens].
  destruct (issubclass (err_class e) OSError); solve_opens.
Qed.

(** X14: the output file is opened only by a run that reaches "Write binary
    file", and then exactly once. When the assembler cannot be started, or
    its text is classified Failed or UnexpectedOutput, or no line matches,
    no file is opened and all files are as before, so an output file of an
    earlier run survives. *)
Theorem X14_output_opened_once (sys : os) (con : console) (src out : str)
    (w : world) :
  let w' := snd (assemble_and_save sys con src out w) in
  opens (trace w') =
  opens (trace w) ++ (if reaches_writer sys src then [out] else []) /\
  (reaches_writer sys src = false -> files w' = files w).
Proof.
  unfold reaches_writer, assemble_and_save, subprocess_run.
  destruct (os_run sys [py "./build/test_asm"; src]) as [e|result].
  { destruct (isinstance (Error e) FileNotFoundError);
      unfold_script; split; [solve_opens | done | solve_opens | done]. }
  rewrite check_assembly_classify.
  destruct (classify (stdout result));
    [split; [solve_opens | done] | split; [solve_opens | done] |].
  unfold parse_hex_dump.
  destruct (findall hex_pattern (stdout result)) as [|m ms] eqn:Hfind.
  { unfold_script. split; [solve_opens | done]. }
  unfold lift, mbind, M_bind.
  destruct (collect_bytes_findall (stdout result)) as [code_bytes Hcol].
  rewrite Hfind in Hcol. rewrite Hcol. split; [|done].
  rewrite write_binary_file_opens. solve_opens.
Qed.

Lemma X14_output_opened_once_witness :
  let w := World [] (<[py "a.bin" := [x01; x02]]> ∅) in
  files (snd (assemble_and_save (printing (py "Assembly FAILED")) utf8_terminal
                (py "a.src") (py "a.bin") w)) = files w.
Proof.
  intros w.
  exact (proj2 (X14_output_opened_once (printing (py "Assembly FAILED"))
                  utf8_terminal (py "a.src") (py "a.bin") w) eq_refl).
Defined.

(** ** Where a run stops, and what the exit status tells *)



(** X16: with a number of arguments other than two the script prints the
    usage message, exits with status 1 and does not run the assembler (the
    usage line is its only effect); with two arguments it exits with status
    0 when invoke, classify, extract and write all succeed and the success
    message is printed, and with status 1 otherwise, an uncaught exception
    included. *)
Theorem X16_exit_status (sys : os) (con : console) (prog : str)
    (args : list str) (w : world) :
  (length args <> 2%nat ->
   script sys con prog args w =
   (1%Z, World (trace w ++ [Print usage]) (files w)))
  /\
  (forall src out, args = [src; out] ->
   fst (script sys con prog args w) =
   if run_succeeds sys con src out then 0%Z else 1%Z) /\
  (forall src out,
   run_succeeds sys con src out = true ->
   pipeline_succeeds sys src out = true).
Proof.
  split; [apply script_usage|]. split.
  - intros src out ->. apply script_status.
  - intros src out. apply run_succeeds_pipeline.
Qed.

Lemma X16_exit_status_witness :
  script (printing sample_dump) utf8_terminal (py "assemble_helper.py")
    [py "a.src"] empty_world = (1%Z, World [Print usage] ∅) /\
  fst (script (printing (py "FAILED")) utf8_terminal (py "assemble_helper.py")
         [py "a.src"; py "a.bin"] empty_world) = 1%Z /\
  fst (script (printing sample_dump) utf8_terminal (py "assemble_helper.py")
         [py "a.src"; py "a.bin"] empty_world) = 0%Z.
Proof.
  split; [|split].
  - apply (proj1 (X16_exit_status (printing sample_dump) utf8_terminal
                    (py "assemble_helper.py") [py "a.src"] empty_world)).
    simpl. lia.
  - exact (proj1 (proj2 (X16_exit_status (printing (py "FAILED"))
                    utf8_terminal (py "assemble_helper.py")
                    [py "a.src"; py "a.bin"] empty_world)) _ _ eq_refl).
  - exact (proj1 (proj2 (X16_exit_status (printing sample_dump)
                    utf8_terminal (py "assemble_helper.py")
                    [py "a.src"; py "a.bin"] empty_world)) _ _ eq_refl).
Defined.
